(** * TracFit: exercise classification and repetition counting

    A shallow embedding of [tracfit.ino] (an Arduino sketch for the Adafruit
    Circuit Playground) and the properties of its classification and
    repetition-counting logic.

    - Accelerometer values are C++ [float]s.  They are only ever compared, so
      they are modelled by the IEEE 754 specification type [spec_float] of the
      standard library with its comparison [SFcompare] (a NaN compares false
      with everything).  Every 32-bit float is a value of that type
      ([F.is_float32]); the theorems hold for all its values.
    - The [int] globals are modelled by [Z]; [++] wraps at the width of [int].
      No counter of the sketch ever gets near the bound.
    - The board is an external object.  Every call made on it is recorded in a
      trace of [Event]s; the accelerometer is an input stream of [Sample]s, of
      which a run is given a finite prefix.  A run that has used up the prefix
      inside one of the sketch's blocking loops ends in [Waiting]. *)

From Stdlib Require Import ZArith Zquot List Bool Lia.
From Stdlib Require Import Floats.SpecFloat.
Import ListNotations.
Local Open Scope Z_scope.

(** ** Floats *)

Module F.

Definition float := spec_float.

(** The C++ comparison operators on floats. *)
Definition lt (a b : float) : bool := SFltb a b.
Definition gt (a b : float) : bool := SFltb b a.
Definition le (a b : float) : bool := SFleb a b.
Definition eq (a b : float) : bool := SFeqb a b.

(** Conversion of an [int] constant to a 32-bit [float]
    (24-bit mantissa, infinities at exponent 128). *)
Definition of_int (n : Z) : float := binary_normalize 24 128 n 0 false.

(** The values that a 32-bit [float] can hold. *)
Definition is_float32 (a : float) : bool := valid_binary 24 128 a.

End F.

Declare Scope float_scope.
Delimit Scope float_scope with flt.
Infix "<" := F.lt : float_scope.
Infix ">" := F.gt : float_scope.
Infix "<=" := F.le : float_scope.
Infix "==" := F.eq (at level 70) : float_scope.

(** ** Integers *)

(** [int] on the ATmega32u4 of the Circuit Playground is 16 bits wide. *)
Definition INT_BITS : Z := 16.

Definition wrap_int (n : Z) : Z :=
  (n + 2 ^ (INT_BITS - 1)) mod 2 ^ INT_BITS - 2 ^ (INT_BITS - 1).

(** [n++] *)
Definition incr (n : Z) : Z := wrap_int (n + 1).

Arguments wrap_int : simpl never.
Arguments incr : simpl never.

(** ** Constants *)

Definition DEBOUNCE : Z := 100.
Definition REPS : Z := 10.
Definition GREEN : Z := 0xFDFE01.
Definition BLUE : Z := 0x00F188.
Definition PURPLE : Z := 0x0101FF.
Definition PINK : Z := 0xFC0839.
Definition WHITE : Z := 0xFFFFFF.
Definition HALF : Z := 1100.
Definition EIGHTH : Z := 275.
Definition EIGHTH_TRIPLE : Z := 183.
(** [SIXTEENTH] is the macro [EIGHTH/2]; it is only used as [SIXTEENTH/2],
    which expands to [EIGHTH/2/2]. *)
Definition SIXTEENTH : Z := EIGHTH ÷ 2.

(** ** The board *)

(** One reading of the accelerometer: the values returned by [motionX()],
    [motionY()] and [motionZ()] at one point of the program. *)
Record Sample := mkSample { sx : F.float; sy : F.float; sz : F.float }.

(** The two push buttons, as read by one call of [loop()]. *)
Record Buttons := mkButtons { leftButton : bool; rightButton : bool }.

(** The calls on [CircuitPlayground] and [delay].  [Motion] records the
    sample that was read at this point. *)
Inductive Event : Type :=
| Begin
| SetBrightness (b : Z)
| Motion (s : Sample)
| SetPixelColor (p : Z) (color : Z)
| ClearPixels
| PlayTone (freq : Z) (ms : Z)
| Delay (ms : Z).

(** ** Global variables

    [accX], [accY], [accZ] are the globals [X], [Y], [Z] of the sketch. *)
Record Globals := mkGlobals {
  finishedJumpJacks : bool;
  finishedSquats : bool;
  finishedSitUps : bool;
  finishedPushUps : bool;
  numOfJumpJacks : Z;
  numOfSquats : Z;
  numOfSitUps : Z;
  numOfPushUps : Z;
  accX : F.float;
  accY : F.float;
  accZ : F.float
}.

(** The globals as initialised when the sketch starts. *)
Definition power_on : Globals :=
  {| finishedJumpJacks := false; finishedSquats := false;
     finishedSitUps := false; finishedPushUps := false;
     numOfJumpJacks := 0; numOfSquats := 0; numOfSitUps := 0; numOfPushUps := 0;
     accX := S754_zero false; accY := S754_zero false; accZ := S754_zero false |}.

Definition set_finishedJumpJacks (b : bool) (g : Globals) : Globals :=
  mkGlobals b (finishedSquats g) (finishedSitUps g) (finishedPushUps g)
    (numOfJumpJacks g) (numOfSquats g) (numOfSitUps g) (numOfPushUps g)
    (accX g) (accY g) (accZ g).
Definition set_finishedSquats (b : bool) (g : Globals) : Globals :=
  mkGlobals (finishedJumpJacks g) b (finishedSitUps g) (finishedPushUps g)
    (numOfJumpJacks g) (numOfSquats g) (numOfSitUps g) (numOfPushUps g)
    (accX g) (accY g) (accZ g).
Definition set_finishedSitUps (b : bool) (g : Globals) : Globals :=
  mkGlobals (finishedJumpJacks g) (finishedSquats g) b (finishedPushUps g)
    (numOfJumpJacks g) (numOfSquats g) (numOfSitUps g) (numOfPushUps g)
    (accX g) (accY g) (accZ g).
Definition set_finishedPushUps (b : bool) (g : Globals) : Globals :=
  mkGlobals (finishedJumpJacks g) (finishedSquats g) (finishedSitUps g) b
    (numOfJumpJacks g) (numOfSquats g) (numOfSitUps g) (numOfPushUps g)
    (accX g) (accY g) (accZ g).
Definition set_numOfJumpJacks (n : Z) (g : Globals) : Globals :=
  mkGlobals (finishedJumpJacks g) (finishedSquats g) (finishedSitUps g)
    (finishedPushUps g) n (numOfSquats g) (numOfSitUps g) (numOfPushUps g)
    (accX g) (accY g) (accZ g).
Definition set_numOfSquats (n : Z) (g : Globals) : Globals :=
  mkGlobals (finishedJumpJacks g) (finishedSquats g) (finishedSitUps g)
    (finishedPushUps g) (numOfJumpJacks g) n (numOfSitUps g) (numOfPushUps g)
    (accX g) (accY g) (accZ g).
Definition set_numOfSitUps (n : Z) (g : Globals) : Globals :=
  mkGlobals (finishedJumpJacks g) (finishedSquats g) (finishedSitUps g)
    (finishedPushUps g) (numOfJumpJacks g) (numOfSquats g) n (numOfPushUps g)
    (accX g) (accY g) (accZ g).
Definition set_numOfPushUps (n : Z) (g : Globals) : Globals :=
  mkGlobals (finishedJumpJacks g) (finishedSquats g) (finishedSitUps g)
    (finishedPushUps g) (numOfJumpJacks g) (numOfSquats g) (numOfSitUps g) n
    (accX g) (accY g) (accZ g).

(** [X = motionX(); Y = motionY(); Z = motionZ();] *)
Definition readMotion (s : Sample) (g : Globals) : Globals :=
  mkGlobals (finishedJumpJacks g) (finishedSquats g) (finishedSitUps g)
    (finishedPushUps g) (numOfJumpJacks g) (numOfSquats g) (numOfSitUps g)
    (numOfPushUps g) (sx s) (sy s) (sz s).

(** ** Runs *)

(** The result of running a piece of the sketch on a prefix of the sample
    stream: it returned, leaving [rest] unread, or it is blocked in a loop
    that needs a further sample.  [out] is the trace so far. *)
Inductive Run : Type :=
| Returned (g : Globals) (rest : list Sample) (out : list Event)
| Waiting (g : Globals) (out : list Event).

Definition globals_of (r : Run) : Globals :=
  match r with Returned g _ _ => g | Waiting g _ => g end.

Definition trace_of (r : Run) : list Event :=
  match r with Returned _ _ out => out | Waiting _ out => out end.

Definition returned (r : Run) : bool :=
  match r with Returned _ _ _ => true | Waiting _ _ => false end.

(** [emit pre r]: the events [pre] happen before the run [r]. *)
Definition emit (pre : list Event) (r : Run) : Run :=
  match r with
  | Returned g rest out => Returned g rest (pre ++ out)
  | Waiting g out => Waiting g (pre ++ out)
  end.

(** Sequential composition. *)
Definition andThen (r : Run) (k : Globals -> list Sample -> Run) : Run :=
  match r with
  | Returned g rest out => emit out (k g rest)
  | Waiting g out => Waiting g out
  end.

(** The parts of what one iteration of a loop body yields: the new value of
    the loop-local variable, the new globals, and the events. *)
Definition new_globals {L : Type} (x : L * Globals * list Event) : Globals :=
  snd (fst x).
Definition new_local {L : Type} (x : L * Globals * list Event) : L :=
  fst (fst x).
Definition events {L : Type} (x : L * Globals * list Event) : list Event :=
  snd x.

(** [while (cond) { read a sample; body; }] with a loop-local variable of
    type [L].  One iteration reads one sample. *)
Fixpoint sample_loop {L : Type} (cond : Globals -> bool)
    (body : L -> Globals -> L * Globals * list Event)
    (l : L) (g : Globals) (inp : list Sample) : Run :=
  if cond g then
    match inp with
    | [] => Waiting g []
    | s :: inp' =>
        let '(l', g', out) := body l (readMotion s g) in
        emit (Motion s :: out) (sample_loop cond body l' g' inp')
    end
  else Returned g inp [].

(** ** Feedback *)

Definition setAllLeds (color : Z) : list Event :=
  map (fun i => SetPixelColor (Z.of_nat i) color) (seq 0 10).

Definition blinkAnimLed (color : Z) : list Event :=
  ClearPixels ::
  concat (map (fun _ => setAllLeds color ++
                        [PlayTone 440 100; Delay DEBOUNCE; ClearPixels; Delay DEBOUNCE])
              (seq 0 2)).

Definition durations : list Z :=
  [EIGHTH_TRIPLE ÷ 2; EIGHTH_TRIPLE ÷ 2; EIGHTH_TRIPLE ÷ 2;
   EIGHTH ÷ 2; SIXTEENTH ÷ 2; HALF ÷ 2].
Definition notes : list Z := [392; 523; 659; 784; 659; 784].

Definition victorySong : list Event :=
  map (fun i => PlayTone (nth i notes 0) (nth i durations 0)) (seq 0 6).

Definition showMainMenu (g : Globals) : list Event :=
  [ClearPixels]
  ++ (if negb (finishedJumpJacks g)
      then [SetPixelColor 0 GREEN; SetPixelColor 1 GREEN] else [])
  ++ (if negb (finishedSquats g)
      then [SetPixelColor 3 BLUE; SetPixelColor 4 BLUE] else [])
  ++ (if negb (finishedSitUps g)
      then [SetPixelColor 5 PURPLE; SetPixelColor 6 PURPLE] else [])
  ++ (if negb (finishedPushUps g)
      then [SetPixelColor 8 PINK; SetPixelColor 9 PINK] else []).

(** ** Repetition detectors *)

Local Open Scope float_scope.

(** [delay(DEBOUNCE*2.5)] and [delay(DEBOUNCE*1.5)]: the [double] products
    250.0 and 150.0, converted to the integer argument of [delay]. *)
Definition DEBOUNCE_SQUATS : Z := 250.
Definition DEBOUNCE_JUMPS : Z := 150.

(** The body of the loop of [trackSitUps], after the sample has been read.
    The loop-local variable is [isUpSitUp] (true = up; false = down). *)
Definition sitUps_body (isUpSitUp : bool) (g : Globals)
    : bool * Globals * list Event :=
  if isUpSitUp && (accX g > accY g) then
    (false, set_numOfSitUps (incr (numOfSitUps g)) g,
     [SetPixelColor (numOfSitUps g) PURPLE; PlayTone 440 100; Delay DEBOUNCE])
  else if negb isUpSitUp && (accX g < accY g) then
    (true, g, [Delay DEBOUNCE])
  else
    (isUpSitUp, g, [Delay DEBOUNCE]).

Definition trackSitUps (g : Globals) (inp : list Sample) : Run :=
  emit (blinkAnimLed PURPLE ++ [ClearPixels])
    (andThen
       (sample_loop (fun g => numOfSitUps g <? REPS) sitUps_body false g inp)
       (fun g rest =>
          Returned (set_finishedSitUps true g) rest
                   (setAllLeds PURPLE ++ victorySong))).

(** The body of the loop of [trackPushUps].  The loop-local variable is
    [isDownPushUp] (true = down; false = up). *)
Definition pushUps_body (isDownPushUp : bool) (g : Globals)
    : bool * Globals * list Event :=
  if isDownPushUp && (accZ g > accX g) then
    (false, set_numOfPushUps (incr (numOfPushUps g)) g,
     [SetPixelColor (numOfPushUps g) PINK; PlayTone 440 100; Delay DEBOUNCE])
  else if negb isDownPushUp && (accZ g < accX g) then
    (true, g, [Delay DEBOUNCE])
  else
    (isDownPushUp, g, [Delay DEBOUNCE]).

Definition trackPushUps (g : Globals) (inp : list Sample) : Run :=
  emit (blinkAnimLed PINK ++ [ClearPixels])
    (andThen
       (sample_loop (fun g => numOfPushUps g <? REPS) pushUps_body false g inp)
       (fun g rest =>
          Returned (set_finishedPushUps true g) rest
                   (setAllLeds PINK ++ victorySong))).

(** The body of the loop of [trackSquats].  The loop-local variable is
    [isDownSquat] (true = downwards motion; false = upwards motion). *)
Definition squats_body (isDownSquat : bool) (g : Globals)
    : bool * Globals * list Event :=
  if isDownSquat && (accZ g > accY g) then
    (false, set_numOfSquats (incr (numOfSquats g)) g,
     [SetPixelColor (numOfSquats g) BLUE; PlayTone 440 100;
      Delay DEBOUNCE_SQUATS])
  else if negb isDownSquat && (accZ g < accY g) then
    (true, g, [Delay DEBOUNCE_SQUATS])
  else
    (isDownSquat, g, [Delay DEBOUNCE_SQUATS]).

Definition trackSquats (g : Globals) (inp : list Sample) : Run :=
  emit (blinkAnimLed BLUE ++ [ClearPixels])
    (andThen
       (sample_loop (fun g => numOfSquats g <? REPS) squats_body true g inp)
       (fun g rest =>
          Returned (set_finishedSquats true g) rest
                   (setAllLeds BLUE ++ victorySong))).

(** The body of the loop of [trackJumpJacks].  The loop-local variable is
    [totalJumps]. *)
Definition jumpJacks_body (totalJumps : Z) (g : Globals)
    : Z * Globals * list Event :=
  if accX g <= F.of_int (-15) then
    let totalJumps := incr totalJumps in
    if Z.rem totalJumps 2 =? 0 then
      (totalJumps, set_numOfJumpJacks (incr (numOfJumpJacks g)) g,
       [SetPixelColor (numOfJumpJacks g) GREEN; PlayTone 440 100;
        Delay DEBOUNCE_JUMPS])
    else (totalJumps, g, [Delay DEBOUNCE_JUMPS])
  else (totalJumps, g, [Delay DEBOUNCE_JUMPS]).

Definition trackJumpJacks (g : Globals) (inp : list Sample) : Run :=
  emit (blinkAnimLed GREEN ++ [ClearPixels])
    (andThen
       (sample_loop (fun g => numOfJumpJacks g <? REPS) jumpJacks_body 1 g inp)
       (fun g rest =>
          Returned (set_finishedJumpJacks true g) rest
                   (setAllLeds GREEN ++ victorySong))).

(** ** Classification and the main loop *)

(** [delay(DEBOUNCE*5); showMainMenu();] *)
Definition reloadMainMenu (g : Globals) (rest : list Sample) : Run :=
  Returned g rest (Delay (DEBOUNCE * 5) :: showMainMenu g).

(** The [while (true)] loop of [beginTracking], entered when the user is
    standing.  It is left only through one of its two [break]s. *)
Fixpoint standing_loop (g : Globals) (inp : list Sample) : Run :=
  match inp with
  | [] => Waiting g []
  | s :: inp' =>
      let g := readMotion s g in
      emit [Motion s; Delay DEBOUNCE]
        (if negb (finishedJumpJacks g) && (accX g <= F.of_int (-15)) then
           andThen (trackJumpJacks g inp') reloadMainMenu
         else if negb (finishedSquats g) && (accZ g < accY g) then
           andThen (trackSquats g inp') reloadMainMenu
         else standing_loop g inp')
  end.

Definition beginTracking (g : Globals) (inp : list Sample) : Run :=
  match inp with
  | [] => Waiting g []
  | s :: inp' =>
      let g := readMotion s g in
      emit [Motion s]
        (andThen
           (if (accX g < accY g) && (accY g < accZ g) then
              standing_loop g inp'
            else if negb (finishedPushUps g)
                    && (accY g > accZ g) && (accZ g > accX g) then
              trackPushUps g inp'
            else if negb (finishedSitUps g)
                    && (accZ g > accX g) && (accX g > accY g) then
              trackSitUps g inp'
            else Returned g inp' [])
           reloadMainMenu)
  end.

Definition setup (g : Globals) : Globals * list Event :=
  (g, [Begin; SetBrightness 4] ++ showMainMenu g).

(** One call of [loop()], with the state of the buttons at that time. *)
Definition loop (b : Buttons) (g : Globals) (inp : list Sample) : Run :=
  if leftButton b || rightButton b then
    emit (setAllLeds WHITE ++ [PlayTone 440 100])
      (andThen (beginTracking g inp)
         (fun g rest => Returned g rest [Delay DEBOUNCE]))
  else Returned g inp [Delay DEBOUNCE].

(** The Arduino runtime calls [loop()] again and again; [loops bs] is one
    call for each button state of [bs]. *)
Fixpoint loops (bs : list Buttons) (g : Globals) (inp : list Sample) : Run :=
  match bs with
  | [] => Returned g inp []
  | b :: bs' => andThen (loop b g inp) (loops bs')
  end.

(** The sketch from power-on: [setup()], then the calls of [loop()]. *)
Definition sketch (bs : list Buttons) (inp : list Sample) : Run :=
  let '(g, out) := setup power_on in emit out (loops bs g inp).

Local Close Scope float_scope.

(** ** The four exercises, uniformly *)

Inductive Kind : Type := JumpingJacks | Squats | Situps | Pushups.

Definition finished (k : Kind) (g : Globals) : bool :=
  match k with
  | JumpingJacks => finishedJumpJacks g
  | Squats => finishedSquats g
  | Situps => finishedSitUps g
  | Pushups => finishedPushUps g
  end.

Definition numOf (k : Kind) (g : Globals) : Z :=
  match k with
  | JumpingJacks => numOfJumpJacks g
  | Squats => numOfSquats g
  | Situps => numOfSitUps g
  | Pushups => numOfPushUps g
  end.

Definition set_finished (k : Kind) (b : bool) (g : Globals) : Globals :=
  match k with
  | JumpingJacks => set_finishedJumpJacks b g
  | Squats => set_finishedSquats b g
  | Situps => set_finishedSitUps b g
  | Pushups => set_finishedPushUps b g
  end.

(** The colour of an exercise and its pair of pixels on the main menu, as
    in [showMainMenu]. *)
Definition colour (k : Kind) : Z :=
  match k with
  | JumpingJacks => GREEN
  | Squats => BLUE
  | Situps => PURPLE
  | Pushups => PINK
  end.

Definition menu_pixels (k : Kind) : list Z :=
  match k with
  | JumpingJacks => [0; 1]
  | Squats => [3; 4]
  | Situps => [5; 6]
  | Pushups => [8; 9]
  end.

Definition track (k : Kind) : Globals -> list Sample -> Run :=
  match k with
  | JumpingJacks => trackJumpJacks
  | Squats => trackSquats
  | Situps => trackSitUps
  | Pushups => trackPushUps
  end.

(** A detector: the loop-local variable of a tracking function with its
    initial value, the loop body, and the reading of the loop-local variable
    as a phase.  A repetition starts in the reference phase, passes through
    the active phase and ends back in the reference phase:
    - sit-ups: active is up ([isUpSitUp]);
    - push-ups: active is down ([isDownPushUp]);
    - squats: active is down ([isDownSquat]);
    - jumping jacks: one jumping jack is two jumps, so the active phase is
      an odd [totalJumps], tested as in the sketch by [totalJumps % 2]. *)
Record Detector : Type := mkDetector {
  local : Type;
  initial : local;
  body : local -> Globals -> local * Globals * list Event;
  active : local -> bool
}.

Definition detector (k : Kind) : Detector :=
  match k with
  | JumpingJacks =>
      mkDetector Z 1 jumpJacks_body (fun totalJumps => negb (Z.rem totalJumps 2 =? 0))
  | Squats => mkDetector bool true squats_body (fun isDownSquat => isDownSquat)
  | Situps => mkDetector bool false sitUps_body (fun isUpSitUp => isUpSitUp)
  | Pushups => mkDetector bool false pushUps_body (fun isDownPushUp => isDownPushUp)
  end.

(** The loop of [track k], from any value of the loop-local variable. *)
Definition detector_loop (k : Kind) (l : local (detector k))
    (g : Globals) (inp : list Sample) : Run :=
  sample_loop (fun g => numOf k g <? REPS) (body (detector k)) l g inp.

(** One iteration of the loop of [track k] on the sample [s]: the changes
    to the loop-local variable and the globals. *)
Definition feed (k : Kind) (s : Sample) (st : local (detector k) * Globals)
    : local (detector k) * Globals :=
  let r := body (detector k) (fst st) (readMotion s (snd st)) in
  (new_local r, new_globals r).

(** The phase transitions of an iteration. *)
Definition back_to_reference (k : Kind) (before after : local (detector k)) : bool :=
  active (detector k) before && negb (active (detector k) after).

Definition entering_active (k : Kind) (before after : local (detector k)) : bool :=
  negb (active (detector k) before) && active (detector k) after.

(** The repetition event of [k] at counter value [n]: the pixel that lights
    up and the tone. *)
Definition rep_event (k : Kind) (n : Z) : list Event :=
  [SetPixelColor n (colour k); PlayTone 440 100].

(** The routine-complete event of [k]. *)
Definition routine_complete (k : Kind) : list Event :=
  setAllLeds (colour k) ++ victorySong.

(** The [delay] that ends an iteration of the loop of [track k]. *)
Definition debounce (k : Kind) : Z :=
  match k with
  | JumpingJacks => DEBOUNCE_JUMPS
  | Squats => DEBOUNCE_SQUATS
  | Situps => DEBOUNCE
  | Pushups => DEBOUNCE
  end.

(** A sample with integral coordinates. *)
Definition sample (x y z : Z) : Sample :=
  mkSample (F.of_int x) (F.of_int y) (F.of_int z).

(** The two tests of a loop body on a sample: the one that makes the
    detector enter the active phase, and the one that brings it back to the
    reference phase.  For jumping jacks both are the jump test. *)
Definition shows_active (k : Kind) (s : Sample) : bool :=
  match k with
  | JumpingJacks => (sx s <= F.of_int (-15))%flt
  | Squats => (sz s < sy s)%flt
  | Situps => (sx s < sy s)%flt
  | Pushups => (sz s < sx s)%flt
  end.

Definition shows_reference (k : Kind) (s : Sample) : bool :=
  match k with
  | JumpingJacks => (sx s <= F.of_int (-15))%flt
  | Squats => (sz s > sy s)%flt
  | Situps => (sx s > sy s)%flt
  | Pushups => (sz s > sx s)%flt
  end.

(** The globals after the samples of [inp] have been read, one after the
    other. *)
Definition read_all (inp : list Sample) (g : Globals) : Globals :=
  fold_left (fun g s => readMotion s g) inp g.

(** What [track k] does after its loop. *)
Definition finish (k : Kind) (g : Globals) (rest : list Sample) : Run :=
  Returned (set_finished k true g) rest (routine_complete k).

(** ** Reading traces *)

Definition float_eq_dec (a b : F.float) : {a = b} + {a <> b}.
Proof.
  decide equality; try apply Z.eq_dec; try apply Pos.eq_dec;
    apply Bool.bool_dec.
Defined.

Definition Sample_eq_dec (a b : Sample) : {a = b} + {a <> b}.
Proof. decide equality; apply float_eq_dec. Defined.

Definition Event_eq_dec (a b : Event) : {a = b} + {a <> b}.
Proof. decide equality; try apply Z.eq_dec; apply Sample_eq_dec. Defined.

(** Does [out] start with the events [pat]? *)
Fixpoint starts_with (pat out : list Event) : bool :=
  match pat, out with
  | [], _ => true
  | _ :: _, [] => false
  | p :: pat', e :: out' =>
      if Event_eq_dec p e then starts_with pat' out' else false
  end.

(** The number of places of [out] at which the events [pat] occur, one
    after the other. *)
Fixpoint occurrences (pat out : list Event) : nat :=
  match out with
  | [] => 0
  | _ :: out' =>
      ((if starts_with pat out then 1 else 0) + occurrences pat out')%nat
  end.

(** ** Squat cycles *)

(** A stream of full squat cycles: each cycle is a sample of the down
    motion (z<y) followed by a sample of the up motion (z>y). *)
Definition is_squat_cycle (c : Sample * Sample) : Prop :=
  shows_active Squats (fst c) = true /\ shows_reference Squats (snd c) = true.

Definition cycle_stream (cycles : list (Sample * Sample)) : list Sample :=
  flat_map (fun c => [fst c; snd c]) cycles.

(** The events of the loop of [trackSquats] over squat cycles, the first of
    which is the repetition number [n]. *)
Fixpoint squat_cycles_trace (n : Z) (cycles : list (Sample * Sample))
    : list Event :=
  match cycles with
  | [] => []
  | c :: cycles' =>
      [Motion (fst c); Delay DEBOUNCE_SQUATS; Motion (snd c)]
      ++ rep_event Squats n ++ [Delay DEBOUNCE_SQUATS]
      ++ squat_cycles_trace (n + 1) cycles'
  end.

(** ** The device at the main menu *)

(** What holds of the counters and flags whenever [loop()] has returned:
    a routine is finished with its counter at [REPS], or not finished with
    its counter at 0. *)
Definition idle_inv (g : Globals) : Prop :=
  forall k, (finished k g = true /\ numOf k g = REPS)
            \/ (finished k g = false /\ numOf k g = 0).

(** No pixel is set to the colour [c] by the event. *)
Definition no_pixel_of (c : Z) (e : Event) : Prop :=
  forall p, e <> SetPixelColor p c.

(** A session of [k] starts with the animation in the colour of [k]. *)
Definition session_started (k : Kind) (out : list Event) : Prop :=
  exists pre post, out = pre ++ blinkAnimLed (colour k) ++ post.

(** A button is down. *)
Definition pressed : Buttons := mkButtons true false.

(** The run leaves the exercise [k] alone: its flag is set at the end, its
    counter is [n], and no pixel was set to its colour. *)
Definition keeps (k : Kind) (n : Z) (r : Run) : Prop :=
  finished k (globals_of r) = true
  /\ numOf k (globals_of r) = n
  /\ Forall (no_pixel_of (colour k)) (trace_of r).

(** If the run returns, it returns with [idle_inv]. *)
Definition returns_idle (r : Run) : Prop :=
  returned r = true -> idle_inv (globals_of r).

(** ** Sample streams of whole routines *)

(** Standing (x<y<z), one jump that starts the session, and the nineteen
    further jumps of ten jumping jacks. *)
Definition jumping_jacks_routine : list Sample :=
  sample 1 2 3 :: repeat (sample (-20) 2 3) 20.

(** Standing, the squat down that starts the session, and ten cycles. *)
Definition squats_routine : list Sample :=
  sample 1 2 3 :: sample 1 3 2
  :: cycle_stream (repeat (sample 1 3 2, sample 1 2 3) 10).

(** Lying on the back (z>x>y), then ten sit-ups: up (x<y), down (x>y). *)
Definition situps_routine : list Sample :=
  sample 2 1 3
  :: flat_map (fun _ => [sample 1 5 3; sample 5 1 3]) (seq 0 10).

(** The globals once both standing routines have been completed, with the
    last sample of [squats_routine] in place. *)
Definition both_standing_done : Globals :=
  mkGlobals true true false false 10 10 0 0
    (F.of_int 1) (F.of_int 2) (F.of_int 3).

(** ** Further readings of samples, runs and traces *)

(** What a run of a tracking loop shows from outside: has it returned, and
    where is the counter of [k]. *)
Definition outcome (k : Kind) (r : Run) : bool * Z :=
  (returned r, numOf k (globals_of r)).

(** A repetition of a phase detector in which the user may stay in each
    position for several samples: one or more samples of the active phase,
    then one or more samples of the reference phase. *)
Definition dwell_cycle (k : Kind) (c : list Sample * list Sample) : Prop :=
  fst c <> [] /\ snd c <> []
  /\ Forall (fun s => shows_active k s = true) (fst c)
  /\ Forall (fun s => shows_reference k s = true) (snd c).

Definition dwell_stream (cycles : list (list Sample * list Sample))
    : list Sample :=
  flat_map (fun c => fst c ++ snd c) cycles.

(** The number of samples of [inp] that pass the jump test. *)
Definition jumps (inp : list Sample) : Z :=
  Z.of_nat (length (filter (shows_active JumpingJacks) inp)).

(** The [setPixelColor] calls of a trace. *)
Definition is_pixel (e : Event) : bool :=
  match e with SetPixelColor _ _ => true | _ => false end.

Definition pixel_events (out : list Event) : list Event := filter is_pixel out.

(** The pixels [n], [n+1], ... ([m] of them) set to the colour [c]. *)
Definition pixels_from (n : Z) (m : nat) (c : Z) : list Event :=
  map (fun i => SetPixelColor (n + Z.of_nat i) c) (seq 0 m).

(** The event addresses no pixel outside the ten of the board. *)
Definition pixel_in_range (e : Event) : Prop :=
  forall p c, e = SetPixelColor p c -> 0 <= p <= 9.

(** Every counter is between 0 and [REPS]. *)
Definition counters_bounded (g : Globals) : Prop :=
  forall k, 0 <= numOf k g <= REPS.

Definition is_delay (e : Event) : bool :=
  match e with Delay _ => true | _ => false end.

(** The trace ends with the main menu of [g], followed by delays only: the
    pixels show the main menu of [g]. *)
Definition shows_menu_of (g : Globals) (out : list Event) : Prop :=
  exists pre dl,
    out = pre ++ showMainMenu g ++ dl /\ forallb is_delay dl = true.

(** The tests of the standing loop on a sample. *)
Definition starts_jumps (g : Globals) (s : Sample) : bool :=
  negb (finishedJumpJacks g) && (sx s <= F.of_int (-15))%flt.

Definition starts_squats (g : Globals) (s : Sample) : bool :=
  negb (finishedSquats g) && (sz s < sy s)%flt.

Definition is_nan (a : F.float) : bool :=
  match a with S754_nan => true | _ => false end.

(** The three coordinates are not three distinct numbers: one of them is a
    NaN, or two of them are equal. *)
Definition unordered (s : Sample) : bool :=
  is_nan (sx s) || is_nan (sy s) || is_nan (sz s)
  || (sx s == sy s)%flt || (sy s == sz s)%flt || (sx s == sz s)%flt.

(** The run keeps the counters bounded and addresses the ten pixels
    only. *)
Definition in_bounds (r : Run) : Prop :=
  counters_bounded (globals_of r) /\ Forall pixel_in_range (trace_of r).

(** The samples that a run has left unread. *)
Definition unread (r : Run) : list Sample :=
  match r with Returned _ rest _ => rest | Waiting _ _ => [] end.

(** A detector that starts in its active phase has half a repetition in
    hand. *)
Definition head_start (k : Kind) : Z :=
  if active (detector k) (initial (detector k)) then 1 else 0.

(** ** The phase as the design describes it *)

(** The design gives sit-ups, push-ups and squats a two-valued phase, the
    loop-local flag of the tracking function, and gives jumping jacks no
    phase: a repeated threshold check. *)
Definition spec_phase (k : Kind) : local (detector k) -> option bool :=
  match k with
  | JumpingJacks => fun _ => None
  | Squats => fun isDownSquat => Some isDownSquat
  | Situps => fun isUpSitUp => Some isUpSitUp
  | Pushups => fun isDownPushUp => Some isDownPushUp
  end.

(** Feeding the same sample again, when that causes no phase change, does
    not increment the counter of [k]. *)
Definition refeed_never_counts (k : Kind) : Prop :=
  forall (l : local (detector k)) (g : Globals) (s : Sample),
    let st1 := feed k s (l, g) in
    let st2 := feed k s st1 in
    spec_phase k (fst st2) = spec_phase k (fst st1) ->
    numOf k (snd st2) = numOf k (snd st1).
(** * Properties *)

(** ** Float comparisons *)

Lemma SFcompare_antisym (a b : F.float) :
  SFcompare b a = option_map CompOpp (SFcompare a b).
Proof.
  destruct a as [sa|sa| |sa ma ea], b as [sb|sb| |sb mb eb]; simpl;
    try destruct sa; try destruct sb; try reflexivity;
    rewrite (Z.compare_antisym ea eb);
    destruct (ea ?= eb)%Z; simpl; try reflexivity;
    change (Pos.compare_cont Eq mb ma) with (Pos.compare mb ma);
    change (Pos.compare_cont Eq ma mb) with (Pos.compare ma mb);
    rewrite (Pos.compare_antisym ma mb);
    destruct (ma ?= mb)%positive; reflexivity.
Qed.

(** The threshold of the jump test and the coordinates used in the
    scenarios are 32-bit floats. *)
Example constants_are_float32 :
  forallb F.is_float32
    (map F.of_int [-15; -20; 0; 1; 2; 3; 4; 5]) = true.
Proof. reflexivity. Qed.

Lemma lt_asym (a b : F.float) : (a < b)%flt = true -> (b < a)%flt = false.
Proof.
  unfold F.lt, SFltb. rewrite (SFcompare_antisym a b).
  destruct (SFcompare a b) as [[]|]; simpl; congruence.
Qed.

Lemma lt_not_gt (a b : F.float) : (a < b)%flt = true -> (a > b)%flt = false.
Proof. exact (lt_asym a b). Qed.

Lemma gt_not_lt (a b : F.float) : (a > b)%flt = true -> (a < b)%flt = false.
Proof. exact (lt_asym b a). Qed.

Lemma eq_not_lt (a b : F.float) :
  (a == b)%flt = true -> (a < b)%flt = false /\ (b < a)%flt = false.
Proof.
  unfold F.eq, F.lt, SFeqb, SFltb. rewrite (SFcompare_antisym a b).
  destruct (SFcompare a b) as [[]|]; simpl; intuition congruence.
Qed.

Lemma SFcompare_Lt_trans (a b c : F.float) :
  SFcompare a b = Some Lt -> SFcompare b c = Some Lt ->
  SFcompare a c = Some Lt.
Proof.
  destruct a as [sa|sa| |sa ma ea], b as [sb|sb| |sb mb eb],
           c as [sc|sc| |sc mc ec]; simpl;
    try destruct sa; try destruct sb; try destruct sc;
    try congruence; intros Hab Hbc.
  - destruct (Z.compare_spec ea eb), (Z.compare_spec eb ec);
      try congruence; subst.
    + rewrite Z.compare_refl.
      change (Pos.compare_cont Eq) with Pos.compare in *.
      destruct (Pos.compare_spec ma mb), (Pos.compare_spec mb mc);
        simpl in *; try congruence.
      assert (Hlt : (mc < ma)%positive) by lia.
      apply Pos.compare_gt_iff in Hlt. rewrite Hlt. reflexivity.
    + apply Z.lt_gt in H0. rewrite H0. reflexivity.
    + apply Z.lt_gt in H. rewrite H. reflexivity.
    + assert (Hlt : (ec < ea)%Z) by lia.
      apply Z.lt_gt in Hlt. rewrite Hlt. reflexivity.
  - destruct (Z.compare_spec ea eb), (Z.compare_spec eb ec);
      try congruence; subst.
    + rewrite Z.compare_refl.
      change (Pos.compare_cont Eq) with Pos.compare in *.
      destruct (Pos.compare_spec ma mb), (Pos.compare_spec mb mc);
        simpl in *; try congruence.
      assert (Hlt : (ma < mc)%positive) by lia.
      apply Pos.compare_lt_iff in Hlt. rewrite Hlt. reflexivity.
    + apply Z.compare_lt_iff in H0. rewrite H0. reflexivity.
    + apply Z.compare_lt_iff in H. rewrite H. reflexivity.
    + assert (Hlt : (ea < ec)%Z) by lia.
      apply Z.compare_lt_iff in Hlt. rewrite Hlt. reflexivity.
Qed.

Lemma lt_trans (a b c : F.float) :
  (a < b)%flt = true -> (b < c)%flt = true -> (a < c)%flt = true.
Proof.
  unfold F.lt, SFltb. intros Hab Hbc.
  destruct (SFcompare a b) as [[]|] eqn:Eab; try discriminate.
  destruct (SFcompare b c) as [[]|] eqn:Ebc; try discriminate.
  now rewrite (SFcompare_Lt_trans a b c Eab Ebc).
Qed.

(** ** Integers *)

Lemma incr_small (n : Z) : -32768 <= n < 32767 -> incr n = n + 1.
Proof.
  intros H. unfold incr, wrap_int, INT_BITS.
  change (2 ^ (16 - 1)) with 32768. change (2 ^ 16) with 65536.
  rewrite Z.mod_small by lia. lia.
Qed.

Lemma even_incr (n : Z) : Z.even (incr n) = negb (Z.even n).
Proof.
  unfold incr, wrap_int, INT_BITS.
  change (2 ^ (16 - 1)) with 32768. change (2 ^ 16) with 65536.
  pose proof (Z.div_mod (n + 1 + 32768) 65536 ltac:(lia)) as Hdm.
  replace ((n + 1 + 32768) mod 65536 - 32768)
    with (Z.succ n + 2 * (- 32768 * ((n + 1 + 32768) / 65536))) by lia.
  now rewrite Z.even_add_mul_2, Z.even_succ, <- Z.negb_even.
Qed.

Lemma rem2_incr (n : Z) : (Z.rem (incr n) 2 =? 0) = negb (Z.rem n 2 =? 0).
Proof. rewrite <- !Zquot.Zeven_rem. apply even_incr. Qed.

(** ** Runs *)

Lemma globals_of_emit pre r : globals_of (emit pre r) = globals_of r.
Proof. now destruct r. Qed.

Lemma trace_of_emit pre r : trace_of (emit pre r) = pre ++ trace_of r.
Proof. now destruct r. Qed.

Lemma returned_emit pre r : returned (emit pre r) = returned r.
Proof. now destruct r. Qed.

Lemma emit_emit pre1 pre2 r : emit pre1 (emit pre2 r) = emit (pre1 ++ pre2) r.
Proof. destruct r; simpl; now rewrite app_assoc. Qed.

Lemma andThen_emit pre r k : andThen (emit pre r) k = emit pre (andThen r k).
Proof.
  destruct r as [g rest out|g out]; simpl; [|reflexivity].
  now rewrite emit_emit.
Qed.

(** ** The sample loop *)

Section SampleLoop.

Context {L : Type}.
Variable cond : Globals -> bool.
Variable body : L -> Globals -> L * Globals * list Event.

Lemma sample_loop_cons l g s inp :
  cond g = true ->
  sample_loop cond body l g (s :: inp) =
  emit (Motion s :: events (body l (readMotion s g)))
    (sample_loop cond body (new_local (body l (readMotion s g)))
       (new_globals (body l (readMotion s g))) inp).
Proof.
  intros Hc. simpl. rewrite Hc.
  now destruct (body l (readMotion s g)) as [[l' g'] out].
Qed.

Lemma sample_loop_exit l g inp :
  cond g = false -> sample_loop cond body l g inp = Returned g inp [].
Proof. intros Hc. destruct inp; simpl; now rewrite Hc. Qed.

Lemma sample_loop_nil l g :
  cond g = true -> sample_loop cond body l g [] = Waiting g [].
Proof. intros Hc. simpl. now rewrite Hc. Qed.

(** A property of the globals that every iteration preserves holds when
    the loop stops, and wherever it waits for the next sample. *)
Lemma sample_loop_inv (I : Globals -> Prop) :
  (forall l g s, cond g = true -> I g ->
                 I (new_globals (body l (readMotion s g)))) ->
  forall inp l g, I g -> I (globals_of (sample_loop cond body l g inp)).
Proof.
  intros Hstep inp. induction inp as [|s inp IH]; intros l g Hg.
  - simpl. now destruct (cond g).
  - destruct (cond g) eqn:Hc.
    + rewrite sample_loop_cons by assumption. rewrite globals_of_emit.
      apply IH. now apply Hstep.
    + now rewrite sample_loop_exit.
Qed.

(** The loop returns only when its condition has become false. *)
Lemma sample_loop_returned inp : forall l g,
  returned (sample_loop cond body l g inp) = true ->
  cond (globals_of (sample_loop cond body l g inp)) = false.
Proof.
  induction inp as [|s inp IH]; intros l g.
  - simpl. destruct (cond g) eqn:Hc; simpl; congruence.
  - destruct (cond g) eqn:Hc.
    + rewrite sample_loop_cons by assumption.
      rewrite returned_emit, globals_of_emit. apply IH.
    + now rewrite sample_loop_exit.
Qed.

(** Every event of the loop is a sample read or an event of the body. *)
Lemma sample_loop_trace (Q : Event -> Prop) :
  (forall s, Q (Motion s)) ->
  (forall l g, Forall Q (events (body l g))) ->
  forall inp l g, Forall Q (trace_of (sample_loop cond body l g inp)).
Proof.
  intros Hm Hb inp. induction inp as [|s inp IH]; intros l g.
  - simpl. destruct (cond g); constructor.
  - destruct (cond g) eqn:Hc.
    + rewrite sample_loop_cons by assumption. rewrite trace_of_emit.
      simpl. constructor; [apply Hm|].
      apply Forall_app. split; [apply Hb|apply IH].
    + rewrite sample_loop_exit by assumption. constructor.
Qed.


End SampleLoop.

(** ** The detectors *)

Lemma track_unfold (k : Kind) (g : Globals) (inp : list Sample) :
  track k g inp =
  emit (blinkAnimLed (colour k) ++ [ClearPixels])
    (andThen (detector_loop k (initial (detector k)) g inp) (finish k)).
Proof. destruct k; reflexivity. Qed.

Lemma numOf_readMotion k s g : numOf k (readMotion s g) = numOf k g.
Proof. destruct k; reflexivity. Qed.

Lemma finished_readMotion k s g : finished k (readMotion s g) = finished k g.
Proof. destruct k; reflexivity. Qed.

Lemma numOf_set_finished k k' b g : numOf k (set_finished k' b g) = numOf k g.
Proof. destruct k, k'; reflexivity. Qed.

Lemma finished_set_finished k b g : finished k (set_finished k b g) = b.
Proof. destruct k; reflexivity. Qed.

Lemma finished_set_finished_other k k' b g :
  k <> k' -> finished k (set_finished k' b g) = finished k g.
Proof. destruct k, k'; intros H; try reflexivity; now elim H. Qed.

(** What an iteration does to the counters and flags: nothing, or it
    increments the counter of its own exercise. *)
Lemma body_globals (k : Kind) (l : local (detector k)) (g : Globals) :
  let g' := new_globals (body (detector k) l g) in
  (forall k', finished k' g' = finished k' g)
  /\ (forall k', k' <> k -> numOf k' g' = numOf k' g)
  /\ (numOf k g' = numOf k g \/ numOf k g' = incr (numOf k g)).
Proof.
  destruct k; simpl in l |- *.
  - unfold jumpJacks_body.
    destruct (accX g <= F.of_int (-15))%flt;
      [destruct (Z.rem (incr l) 2 =? 0)|]; simpl;
      (split; [intros []; reflexivity|]);
      (split; [intros [] H; try reflexivity; now elim H|]); auto.
  - unfold squats_body.
    destruct (l && (accZ g > accY g)%flt);
      [|destruct (negb l && (accZ g < accY g)%flt)]; simpl;
      (split; [intros []; reflexivity|]);
      (split; [intros [] H; try reflexivity; now elim H|]); auto.
  - unfold sitUps_body.
    destruct (l && (accX g > accY g)%flt);
      [|destruct (negb l && (accX g < accY g)%flt)]; simpl;
      (split; [intros []; reflexivity|]);
      (split; [intros [] H; try reflexivity; now elim H|]); auto.
  - unfold pushUps_body.
    destruct (l && (accZ g > accX g)%flt);
      [|destruct (negb l && (accZ g < accX g)%flt)]; simpl;
      (split; [intros []; reflexivity|]);
      (split; [intros [] H; try reflexivity; now elim H|]); auto.
Qed.

(** An iteration increments the counter exactly when the phase goes from
    active back to reference. *)
Lemma body_counts (k : Kind) (l : local (detector k)) (g : Globals) :
  0 <= numOf k g < REPS ->
  let r := body (detector k) l g in
  numOf k (new_globals r) =
  numOf k g + (if back_to_reference k l (new_local r) then 1 else 0).
Proof.
  intros Hn. unfold REPS in Hn.
  assert (Hi : incr (numOf k g) = numOf k g + 1) by (apply incr_small; lia).
  unfold back_to_reference, new_globals, new_local.
  destruct k; simpl in l, Hn, Hi |- *.
  - unfold jumpJacks_body. pose proof (rem2_incr l) as Hp.
    destruct (accX g <= F.of_int (-15))%flt; cbn [fst snd].
    + destruct (Z.rem (incr l) 2 =? 0) eqn:E1, (Z.rem l 2 =? 0) eqn:E2;
        cbn [fst snd]; rewrite ?E1; simpl in *; try discriminate; lia.
    + destruct (Z.rem l 2 =? 0); simpl; lia.
  - unfold squats_body.
    destruct l, (accZ g > accY g)%flt, (accZ g < accY g)%flt; simpl; lia.
  - unfold sitUps_body.
    destruct l, (accX g > accY g)%flt, (accX g < accY g)%flt; simpl; lia.
  - unfold pushUps_body.
    destruct l, (accZ g > accX g)%flt, (accZ g < accX g)%flt; simpl; lia.
Qed.

(** The events of an iteration: the repetition event when the phase goes
    back to reference, then the delay. *)
Lemma body_events (k : Kind) (l : local (detector k)) (g : Globals) :
  let r := body (detector k) l g in
  events r =
  (if back_to_reference k l (new_local r) then rep_event k (numOf k g) else [])
  ++ [Delay (debounce k)].
Proof.
  unfold back_to_reference, new_local, events, rep_event.
  destruct k; simpl in l |- *.
  - unfold jumpJacks_body. pose proof (rem2_incr l) as Hp.
    destruct (accX g <= F.of_int (-15))%flt; cbn [fst snd].
    + destruct (Z.rem (incr l) 2 =? 0) eqn:E1, (Z.rem l 2 =? 0) eqn:E2;
        cbn [fst snd]; rewrite ?E1; simpl in *; try discriminate; reflexivity.
    + destruct (Z.rem l 2 =? 0); reflexivity.
  - unfold squats_body.
    destruct l, (accZ g > accY g)%flt, (accZ g < accY g)%flt; reflexivity.
  - unfold sitUps_body.
    destruct l, (accX g > accY g)%flt, (accX g < accY g)%flt; reflexivity.
  - unfold pushUps_body.
    destruct l, (accZ g > accX g)%flt, (accZ g < accX g)%flt; reflexivity.
Qed.

Lemma detector_loop_cons k l g s inp :
  numOf k g < REPS ->
  detector_loop k l g (s :: inp) =
  emit (Motion s :: events (body (detector k) l (readMotion s g)))
    (detector_loop k (fst (feed k s (l, g))) (snd (feed k s (l, g))) inp).
Proof.
  intros Hn. unfold detector_loop.
  rewrite sample_loop_cons by (apply Z.ltb_lt; exact Hn). reflexivity.
Qed.

Lemma detector_loop_exit k l g inp :
  REPS <= numOf k g -> detector_loop k l g inp = Returned g inp [].
Proof.
  intros Hn. unfold detector_loop.
  now rewrite sample_loop_exit by (apply Z.ltb_ge; exact Hn).
Qed.

Lemma feed_counts k s l g :
  0 <= numOf k g < REPS ->
  numOf k (snd (feed k s (l, g))) =
  numOf k g + (if back_to_reference k l (fst (feed k s (l, g))) then 1 else 0).
Proof.
  intros Hn. unfold feed. cbn [fst snd].
  rewrite <- (numOf_readMotion k s g) in Hn |- *.
  exact (body_counts k l (readMotion s g) Hn).
Qed.

Lemma detector_loop_step k l g s :
  (numOf k g <? REPS) = true -> 0 <= numOf k g <= REPS ->
  let g' := new_globals (body (detector k) l (readMotion s g)) in
  0 <= numOf k g' <= REPS /\ numOf k g <= numOf k g'.
Proof.
  intros Hc Hn. apply Z.ltb_lt in Hc.
  pose proof (feed_counts k s l g ltac:(lia)) as Hf.
  unfold feed in Hf. cbn [fst snd] in Hf. cbv zeta.
  destruct (back_to_reference k l _); lia.
Qed.

Lemma detector_loop_bounds k inp l g :
  0 <= numOf k g <= REPS ->
  numOf k g <= numOf k (globals_of (detector_loop k l g inp)) <= REPS.
Proof.
  intros Hn. unfold detector_loop.
  apply (sample_loop_inv _ _ (fun g' => numOf k g <= numOf k g' <= REPS));
    [|lia].
  intros l0 g0 s Hc H0.
  pose proof (detector_loop_step k l0 g0 s Hc ltac:(lia)) as Hs.
  cbv zeta in Hs. lia.
Qed.


(** The tracking function changes a counter only in its loop. *)
Lemma numOf_track k k' g inp :
  numOf k' (globals_of (track k g inp)) =
  numOf k' (globals_of (detector_loop k (initial (detector k)) g inp)).
Proof.
  rewrite track_unfold, globals_of_emit.
  destruct (detector_loop k (initial (detector k)) g inp) as [g' rest out|g' out];
    simpl; [apply numOf_set_finished|reflexivity].
Qed.





(** ** Feeding the same sample again *)

Lemma readMotion_idem s g : readMotion s (readMotion s g) = readMotion s g.
Proof. reflexivity. Qed.

(** An iteration that leaves the phase as it was changes nothing but the
    sample held in the globals. *)
Lemma feed_same_phase (k : Kind) (l : local (detector k)) (g : Globals)
    (s : Sample) :
  active (detector k) (fst (feed k s (l, g))) = active (detector k) l ->
  feed k s (l, g) = (l, readMotion s g).
Proof.
  unfold feed, new_local, new_globals. cbn [fst snd].
  destruct k; simpl in l |- *.
  - unfold jumpJacks_body. pose proof (rem2_incr l) as Hp.
    destruct (accX (readMotion s g) <= F.of_int (-15))%flt; [|reflexivity].
    destruct (Z.rem (incr l) 2 =? 0) eqn:E1, (Z.rem l 2 =? 0) eqn:E2;
      cbn [fst snd]; rewrite ?E1; simpl in *; intros H; discriminate.
  - unfold squats_body.
    destruct l, (accZ (readMotion s g) > accY (readMotion s g))%flt,
      (accZ (readMotion s g) < accY (readMotion s g))%flt;
      simpl; intros H; try discriminate; reflexivity.
  - unfold sitUps_body.
    destruct l, (accX (readMotion s g) > accY (readMotion s g))%flt,
      (accX (readMotion s g) < accY (readMotion s g))%flt;
      simpl; intros H; try discriminate; reflexivity.
  - unfold pushUps_body.
    destruct l, (accZ (readMotion s g) > accX (readMotion s g))%flt,
      (accZ (readMotion s g) < accX (readMotion s g))%flt;
      simpl; intros H; try discriminate; reflexivity.
Qed.

Lemma spec_phase_active (k : Kind) (l1 l2 : local (detector k)) :
  k <> JumpingJacks ->
  spec_phase k l1 = spec_phase k l2 ->
  active (detector k) l1 = active (detector k) l2.
Proof.
  intros Hk. destruct k; [now elim Hk| | |]; simpl; congruence.
Qed.

(** The phase detectors go further: whatever the first feed did, feeding
    the same sample a second time never increments the counter. *)
Lemma refeed_phase_detector (k : Kind) (l : local (detector k)) (g : Globals)
    (s : Sample) :
  k <> JumpingJacks ->
  numOf k (snd (feed k s (feed k s (l, g)))) = numOf k (snd (feed k s (l, g))).
Proof.
  intros Hk. unfold feed, new_local, new_globals. cbn [fst snd].
  destruct k; [now elim Hk| | |]; simpl in l |- *.
  - unfold squats_body; simpl.
    destruct l, (sz s > sy s)%flt eqn:E1, (sz s < sy s)%flt eqn:E2;
      simpl; rewrite ?E1, ?E2; try reflexivity;
      exfalso; apply lt_asym in E2; unfold F.gt, F.lt in *; congruence.
  - unfold sitUps_body; simpl.
    destruct l, (sx s > sy s)%flt eqn:E1, (sx s < sy s)%flt eqn:E2;
      simpl; rewrite ?E1, ?E2; try reflexivity;
      exfalso; apply lt_asym in E2; unfold F.gt, F.lt in *; congruence.
  - unfold pushUps_body; simpl.
    destruct l, (sz s > sx s)%flt eqn:E1, (sz s < sx s)%flt eqn:E2;
      simpl; rewrite ?E1, ?E2; try reflexivity;
      exfalso; apply lt_asym in E2; unfold F.gt, F.lt in *; congruence.
Qed.

(** The jumping-jack detector has no such edge: every sample at or below
    the threshold is a jump, so the same sample fed three times counts
    twice. *)
Example refeed_jumping_jacks :
  let s := sample (-20) 0 0 in
  let st1 := feed JumpingJacks s (1, power_on) in
  let st2 := feed JumpingJacks s st1 in
  let st3 := feed JumpingJacks s st2 in
  (numOf JumpingJacks (snd st1), numOf JumpingJacks (snd st2),
   numOf JumpingJacks (snd st3)) = (1, 1, 2).
Proof. vm_compute. reflexivity. Qed.

(** Whatever the first feed did to a two-phase detector, the second feed
    of the same sample leaves the phase where the first put it. *)
Lemma refeed_phase_settled (k : Kind) (l : local (detector k)) (g : Globals)
    (s : Sample) :
  k <> JumpingJacks ->
  fst (feed k s (feed k s (l, g))) = fst (feed k s (l, g)).
Proof.
  intros Hk. unfold feed, new_local, new_globals. cbn [fst snd].
  destruct k; [now elim Hk| | |]; simpl in l |- *.
  - unfold squats_body; simpl.
    destruct l, (sz s > sy s)%flt eqn:E1, (sz s < sy s)%flt eqn:E2;
      simpl; rewrite ?E1, ?E2; try reflexivity;
      exfalso; apply lt_asym in E2; unfold F.gt, F.lt in *; congruence.
  - unfold sitUps_body; simpl.
    destruct l, (sx s > sy s)%flt eqn:E1, (sx s < sy s)%flt eqn:E2;
      simpl; rewrite ?E1, ?E2; try reflexivity;
      exfalso; apply lt_asym in E2; unfold F.gt, F.lt in *; congruence.
  - unfold pushUps_body; simpl.
    destruct l, (sz s > sx s)%flt eqn:E1, (sz s < sx s)%flt eqn:E2;
      simpl; rewrite ?E1, ?E2; try reflexivity;
      exfalso; apply lt_asym in E2; unfold F.gt, F.lt in *; congruence.
Qed.

(** C4, as stated, fails for jumping jacks.  The detector has seen one
    jumping jack (jump counter 2, counter 1) and is fed the sample
    (-20,0,0) twice.  The detector has no phase, so no phase changes; the
    first feed leaves the counter at 1 and the second feed of the same
    sample takes it to 2. *)
Lemma C4_jumping_jacks_refeed_counts :
  spec_phase JumpingJacks
    (fst (feed JumpingJacks (sample (-20) 0 0)
            (feed JumpingJacks (sample (-20) 0 0)
               (2, set_numOfJumpJacks 1 power_on))))
  = spec_phase JumpingJacks
      (fst (feed JumpingJacks (sample (-20) 0 0)
              (2, set_numOfJumpJacks 1 power_on)))
  /\ numOf JumpingJacks
       (snd (feed JumpingJacks (sample (-20) 0 0)
               (2, set_numOfJumpJacks 1 power_on))) = 1
  /\ numOf JumpingJacks
       (snd (feed JumpingJacks (sample (-20) 0 0)
               (feed JumpingJacks (sample (-20) 0 0)
                  (2, set_numOfJumpJacks 1 power_on)))) = 2
  /\ ~ (forall k, refeed_never_counts k).
Proof.
  split; [reflexivity|]. split; [reflexivity|]. split; [reflexivity|].
  intros H.
  specialize (H JumpingJacks 2 (set_numOfJumpJacks 1 power_on)
                (sample (-20) 0 0) eq_refl).
  vm_compute in H. discriminate H.
Qed.

(** C4, amended.  For the sit-up, push-up and squat detectors and every
    detector state: a sample that causes no phase change does not
    increment the counter, and feeding the same sample again never
    increments it and leaves the phase where the first feed put it.  The
    jumping-jack detector has no phase: a sample that is not a jump
    (x <= -15 is false) changes nothing, fed once or again; a jump sample
    fed twice increments the counter exactly once over the two feeds,
    so feeding the same jump sample again and again counts on every second
    feed. *)
Theorem C4_refeed_two_phase_detectors (k : Kind) (l : local (detector k))
    (g : Globals) (s : Sample) :
  (k <> JumpingJacks ->
   (spec_phase k (fst (feed k s (l, g))) = spec_phase k l ->
    numOf k (snd (feed k s (l, g))) = numOf k g)
   /\ numOf k (snd (feed k s (feed k s (l, g))))
      = numOf k (snd (feed k s (l, g)))
   /\ spec_phase k (fst (feed k s (feed k s (l, g))))
      = spec_phase k (fst (feed k s (l, g))))
  /\ (k = JumpingJacks ->
      (shows_active JumpingJacks s = false ->
       feed k s (l, g) = (l, readMotion s g)
       /\ numOf k (snd (feed k s (feed k s (l, g)))) = numOf k g)
      /\ (shows_active JumpingJacks s = true ->
          0 <= numOf k g < REPS ->
          numOf k (snd (feed k s (feed k s (l, g)))) = numOf k g + 1)).
Proof.
  split.
  - intros Hk. split; [|split].
    + intros Hp. apply (spec_phase_active k _ _ Hk) in Hp.
      rewrite (feed_same_phase k l g s Hp). cbn [snd].
      apply numOf_readMotion.
    + now apply refeed_phase_detector.
    + now rewrite refeed_phase_settled.
  - intros ->.
    assert (Hno : shows_active JumpingJacks s = false ->
                  forall g0, feed JumpingJacks s (l, g0) = (l, readMotion s g0)).
    { intros Hs g0. unfold feed, new_local, new_globals. cbn [fst snd].
      simpl body. unfold jumpJacks_body.
      change (accX (readMotion s g0) <= F.of_int (-15))%flt
        with (shows_active JumpingJacks s).
      now rewrite Hs. }
    split.
    + intros Hs. split; [now apply Hno|].
      rewrite (Hno Hs g), (Hno Hs (readMotion s g)). reflexivity.
    + intros Hs Hn.
      assert (Hi : incr (numOfJumpJacks g) = numOfJumpJacks g + 1)
        by (apply incr_small; simpl in Hn; unfold REPS in Hn; lia).
      pose proof (rem2_incr l) as Hp1. pose proof (rem2_incr (incr l)) as Hp2.
      unfold feed, new_local, new_globals. cbn [fst snd].
      simpl body. unfold jumpJacks_body.
      change (accX (readMotion s g) <= F.of_int (-15))%flt
        with (shows_active JumpingJacks s).
      rewrite Hs.
      destruct (Z.rem (incr l) 2 =? 0) eqn:E1; cbn [fst snd].
      * change (accX (readMotion s (set_numOfJumpJacks (incr (numOfJumpJacks (readMotion s g))) (readMotion s g))) <= F.of_int (-15))%flt
          with (shows_active JumpingJacks s).
        rewrite Hs. rewrite Hp2. cbn [negb fst snd]. simpl. exact Hi.
      * change (accX (readMotion s (readMotion s g)) <= F.of_int (-15))%flt
          with (shows_active JumpingJacks s).
        rewrite Hs. rewrite Hp2. cbn [negb fst snd]. simpl. exact Hi.
Qed.

Lemma C4_refeed_two_phase_detectors_witness :
  numOf Situps
    (snd (feed Situps (sample 5 1 0)
            (feed Situps (sample 5 1 0) (true, power_on))))
  = numOf Situps (snd (feed Situps (sample 5 1 0) (true, power_on)))
  /\ numOf JumpingJacks
       (snd (feed JumpingJacks (sample (-20) 0 0)
               (feed JumpingJacks (sample (-20) 0 0) (1, power_on))))
     = numOf JumpingJacks power_on + 1.
Proof.
  split.
  - exact (proj1 (proj2 (proj1 (C4_refeed_two_phase_detectors Situps true
                                  power_on (sample 5 1 0))
                           ltac:(discriminate)))).
  - apply (proj2 (proj2 (C4_refeed_two_phase_detectors JumpingJacks 1
                           power_on (sample (-20) 0 0)) eq_refl)).
    + reflexivity.
    + split; [discriminate|reflexivity].
Defined.

(** ** Scenarios *)

(** C8. The sit-up detector, started with no sit-up counted, is fed x=5,y=1
    (down), then x=1,y=5 (up), then x=5,y=1 (down).  The trace shows exactly
    one repetition event, after the third sample has been read, and the
    counter is left at 1; the detector then waits for the next sample. *)
Theorem C8_situps_scenario (g : Globals) (s1 s2 s3 : Sample) :
  numOfSitUps g = 0 ->
  sx s1 = F.of_int 5 -> sy s1 = F.of_int 1 ->
  sx s2 = F.of_int 1 -> sy s2 = F.of_int 5 ->
  sx s3 = F.of_int 5 -> sy s3 = F.of_int 1 ->
  trackSitUps g [s1; s2; s3] =
  Waiting (set_numOfSitUps 1 (readMotion s3 g))
    (blinkAnimLed PURPLE ++ [ClearPixels]
     ++ [Motion s1; Delay DEBOUNCE]
     ++ [Motion s2; Delay DEBOUNCE]
     ++ [Motion s3] ++ rep_event Situps 0 ++ [Delay DEBOUNCE])
  /\ numOfSitUps (globals_of (trackSitUps g [s1; s2])) = 0
  /\ numOfSitUps (globals_of (trackSitUps g [s1; s2; s3])) = 1.
Proof.
  destruct g, s1 as [x1 y1 z1], s2 as [x2 y2 z2], s3 as [x3 y3 z3].
  simpl. intros; subst. vm_compute. auto.
Qed.

Lemma C8_situps_scenario_witness :
  numOfSitUps (globals_of
     (trackSitUps power_on [sample 5 1 0; sample 1 5 0; sample 5 1 0])) = 1.
Proof.
  exact (proj2 (proj2 (C8_situps_scenario power_on
     (sample 5 1 0) (sample 1 5 0) (sample 5 1 0)
     eq_refl eq_refl eq_refl eq_refl eq_refl eq_refl eq_refl))).
Defined.

(** C7. The jumping-jack detector starts with its jump counter at 1 and no
    jumping jack counted, and is fed four samples with x=-20.  Each of them
    is a jump; the jump counter becomes 2, 3, 4 and 5.  The trace shows a
    repetition event exactly after the samples that make the jump counter
    even, the first and the third (jumps 2 and 4), and the counter is left
    at 2. *)
Theorem C7_jumping_jacks_scenario (g : Globals) (s1 s2 s3 s4 : Sample) :
  numOfJumpJacks g = 0 ->
  sx s1 = F.of_int (-20) -> sx s2 = F.of_int (-20) ->
  sx s3 = F.of_int (-20) -> sx s4 = F.of_int (-20) ->
  initial (detector JumpingJacks) = 1
  /\ trackJumpJacks g [s1; s2; s3; s4] =
     Waiting (set_numOfJumpJacks 2 (readMotion s4 g))
       (blinkAnimLed GREEN ++ [ClearPixels]
        ++ [Motion s1] ++ rep_event JumpingJacks 0 ++ [Delay DEBOUNCE_JUMPS]
        ++ [Motion s2; Delay DEBOUNCE_JUMPS]
        ++ [Motion s3] ++ rep_event JumpingJacks 1 ++ [Delay DEBOUNCE_JUMPS]
        ++ [Motion s4; Delay DEBOUNCE_JUMPS])
  /\ (let st1 := feed JumpingJacks s1 (1, g) in
      let st2 := feed JumpingJacks s2 st1 in
      let st3 := feed JumpingJacks s3 st2 in
      let st4 := feed JumpingJacks s4 st3 in
      (fst st1, fst st2, fst st3, fst st4) = (2, 3, 4, 5)
      /\ (numOfJumpJacks (snd st1), numOfJumpJacks (snd st2),
          numOfJumpJacks (snd st3), numOfJumpJacks (snd st4)) = (1, 1, 2, 2))
  /\ numOfJumpJacks (globals_of (trackJumpJacks g [s1; s2; s3; s4])) = 2.
Proof.
  destruct g, s1 as [x1 y1 z1], s2 as [x2 y2 z2], s3 as [x3 y3 z3],
    s4 as [x4 y4 z4].
  simpl. intros; subst. vm_compute. auto.
Qed.

Lemma C7_jumping_jacks_scenario_witness :
  numOfJumpJacks (globals_of
     (trackJumpJacks power_on
        [sample (-20) 0 0; sample (-20) 0 0; sample (-20) 0 0;
         sample (-20) 0 0])) = 2.
Proof.
  exact (proj2 (proj2 (proj2 (C7_jumping_jacks_scenario power_on
     (sample (-20) 0 0) (sample (-20) 0 0) (sample (-20) 0 0)
     (sample (-20) 0 0) eq_refl eq_refl eq_refl eq_refl eq_refl)))).
Defined.

(** ** Initial phases *)

(** A detector in its reference phase that is shown no sample of the
    active phase stays where it is. *)
Lemma reference_phase_waits (k : Kind) (inp : list Sample) :
  k = Situps \/ k = Pushups ->
  forall g, numOf k g < REPS ->
  Forall (fun s => shows_active k s = false) inp ->
  detector_loop k (initial (detector k)) g inp =
  Waiting (read_all inp g)
          (flat_map (fun s => [Motion s; Delay DEBOUNCE]) inp).
Proof.
  intros Hk. induction inp as [|s inp IH]; intros g Hn Hall.
  - unfold detector_loop. rewrite sample_loop_nil; [reflexivity|].
    now apply Z.ltb_lt.
  - inversion Hall as [|s' inp' Hs Hall']; subst s' inp'.
    rewrite detector_loop_cons by assumption.
    assert (Hb : body (detector k) (initial (detector k)) (readMotion s g)
                 = (initial (detector k), readMotion s g, [Delay DEBOUNCE])).
    { destruct Hk; subst k; simpl in Hs |- *.
      - unfold sitUps_body. simpl. now rewrite Hs.
      - unfold pushUps_body. simpl. now rewrite Hs. }
    unfold feed. cbn [fst snd]. rewrite Hb.
    unfold new_local, new_globals, events. cbn [fst snd].
    rewrite IH; [reflexivity| |assumption].
    now rewrite numOf_readMotion.
Qed.

(** C10. The squat detector starts in its active phase (down): the first
    sample of a squat session with z>y is followed at once by a repetition
    event and counted.  The sit-up and push-up detectors start in their
    reference phase (down, up): their first sample never yields a
    repetition event, and as long as no sample shows the active phase
    (x<y for sit-ups, z<x for push-ups) they count nothing and emit no
    repetition event. *)
Theorem C10_initial_phases :
  (active (detector Squats) (initial (detector Squats)) = true
   /\ forall g s inp,
        0 <= numOfSquats g < REPS -> shows_reference Squats s = true ->
        trackSquats g (s :: inp) =
        emit (blinkAnimLed BLUE ++ [ClearPixels]
              ++ [Motion s] ++ rep_event Squats (numOfSquats g)
              ++ [Delay DEBOUNCE_SQUATS])
          (andThen
             (detector_loop Squats false
                (set_numOfSquats (numOfSquats g + 1) (readMotion s g)) inp)
             (finish Squats)))
  /\ forall k, k = Situps \/ k = Pushups ->
       active (detector k) (initial (detector k)) = false
       /\ (forall g s,
             events (body (detector k) (initial (detector k)) (readMotion s g))
             = [Delay DEBOUNCE]
             /\ numOf k (snd (feed k s (initial (detector k), g))) = numOf k g)
       /\ (forall g inp,
             numOf k g < REPS ->
             Forall (fun s => shows_active k s = false) inp ->
             track k g inp =
             Waiting (read_all inp g)
               (blinkAnimLed (colour k) ++ [ClearPixels]
                ++ flat_map (fun s => [Motion s; Delay DEBOUNCE]) inp)
             /\ numOf k (globals_of (track k g inp)) = numOf k g).
Proof.
  split; [split; [reflexivity|]|].
  - intros g s inp Hn Hs. simpl in Hs.
    change (trackSquats g (s :: inp)) with (track Squats g (s :: inp)).
    rewrite track_unfold.
    rewrite detector_loop_cons by (simpl; lia).
    unfold feed. cbn [fst snd]. simpl body. simpl initial.
    unfold squats_body. simpl accZ. simpl accY. rewrite Hs. simpl andb.
    unfold new_local, new_globals, events. cbn [fst snd].
    rewrite incr_small by (simpl; unfold REPS in Hn; lia).
    rewrite andThen_emit, emit_emit. simpl colour. simpl numOfSquats.
    reflexivity.
  - intros k Hk. split; [destruct Hk; subst k; reflexivity|]. split.
    + intros g s. unfold feed, new_globals, events.
      destruct Hk; subst k; simpl.
      * unfold sitUps_body. simpl.
        destruct (sx s < sy s)%flt; split; reflexivity.
      * unfold pushUps_body. simpl.
        destruct (sz s < sx s)%flt; split; reflexivity.
    + intros g inp Hn Hall.
      assert (Ht : track k g inp =
                   Waiting (read_all inp g)
                     (blinkAnimLed (colour k) ++ [ClearPixels]
                      ++ flat_map (fun s => [Motion s; Delay DEBOUNCE]) inp)).
      { rewrite track_unfold.
        rewrite (reference_phase_waits k inp Hk g Hn Hall). simpl.
        reflexivity. }
      split; [exact Ht|]. rewrite Ht. simpl.
      unfold read_all. clear. revert g.
      induction inp as [|s inp IH]; intros g; simpl; [reflexivity|].
      rewrite IH. apply numOf_readMotion.
Qed.

Lemma C10_initial_phases_witness :
  trackSquats power_on [sample 0 1 5] =
  emit (blinkAnimLed BLUE ++ [ClearPixels]
        ++ [Motion (sample 0 1 5)] ++ rep_event Squats (numOfSquats power_on)
        ++ [Delay DEBOUNCE_SQUATS])
    (andThen
       (detector_loop Squats false
          (set_numOfSquats (numOfSquats power_on + 1)
             (readMotion (sample 0 1 5) power_on)) [])
       (finish Squats))
  /\ numOf Situps
       (globals_of (track Situps power_on [sample 5 1 0; sample 5 5 0]))
     = numOf Situps power_on.
Proof.
  split.
  - apply (proj2 (proj1 C10_initial_phases) power_on (sample 0 1 5) []).
    + vm_compute. split; [discriminate|reflexivity].
    + reflexivity.
  - apply (proj2 (proj2 (proj2 C10_initial_phases Situps (or_introl eq_refl)))
             power_on [sample 5 1 0; sample 5 5 0]).
    + reflexivity.
    + repeat constructor.
Defined.

(** ** A full squat routine *)

Lemma occurrences_skip (p : Event) (pat pre out : list Event) :
  ~ In p pre ->
  occurrences (p :: pat) (pre ++ out) = occurrences (p :: pat) out.
Proof.
  induction pre as [|e pre IH]; intros Hp; [reflexivity|].
  cbn [app occurrences starts_with].
  destruct (Event_eq_dec p e) as [->|Hne].
  - elim Hp. now left.
  - rewrite IH; [reflexivity|]. intros Hin. apply Hp. now right.
Qed.

(** One squat cycle from any phase: the down sample leaves the detector
    down, the up sample is counted. *)
Lemma squat_cycle (l : bool) (g : Globals) (c : Sample * Sample)
    (inp : list Sample) :
  0 <= numOfSquats g < REPS -> is_squat_cycle c ->
  detector_loop Squats l g (fst c :: snd c :: inp) =
  emit ([Motion (fst c); Delay DEBOUNCE_SQUATS; Motion (snd c)]
        ++ rep_event Squats (numOfSquats g) ++ [Delay DEBOUNCE_SQUATS])
    (detector_loop Squats false
       (set_numOfSquats (numOfSquats g + 1) (readMotion (snd c) g)) inp).
Proof.
  intros Hn [Hd Hu]. destruct c as [d u]. simpl in Hd, Hu |- *.
  assert (Hd' : (sz d > sy d)%flt = false) by (now apply lt_not_gt).
  rewrite detector_loop_cons by (simpl; lia).
  assert (H1 : body (detector Squats) l (readMotion d g)
               = (true, readMotion d g, [Delay DEBOUNCE_SQUATS])).
  { simpl. unfold squats_body. simpl. rewrite Hd, Hd'.
    destruct l; reflexivity. }
  unfold feed. cbn [fst snd]. rewrite H1.
  unfold new_local, new_globals, events. cbn [fst snd].
  rewrite detector_loop_cons by (simpl; lia).
  assert (H2 : body (detector Squats) true (readMotion u (readMotion d g))
               = (false,
                  set_numOfSquats (numOfSquats g + 1) (readMotion u g),
                  rep_event Squats (numOfSquats g) ++ [Delay DEBOUNCE_SQUATS])).
  { simpl. unfold squats_body. simpl. rewrite Hu. simpl.
    rewrite incr_small by (unfold REPS in Hn; lia). reflexivity. }
  unfold feed. cbn [fst snd]. rewrite H2.
  unfold new_local, new_globals, events. cbn [fst snd].
  rewrite emit_emit. reflexivity.
Qed.

Lemma squat_cycles_run (cycles : list (Sample * Sample)) :
  forall (l : bool) (g : Globals) (inp : list Sample),
  0 <= numOfSquats g ->
  numOfSquats g + Z.of_nat (length cycles) <= REPS ->
  Forall is_squat_cycle cycles ->
  exists l' g',
    detector_loop Squats l g (cycle_stream cycles ++ inp) =
    emit (squat_cycles_trace (numOfSquats g) cycles)
         (detector_loop Squats l' g' inp)
    /\ numOfSquats g' = numOfSquats g + Z.of_nat (length cycles).
Proof.
  induction cycles as [|c cycles IH]; intros l g inp H0 Hn Hall.
  - exists l, g. simpl. split; [|lia].
    now destruct (detector_loop Squats l g inp).
  - inversion Hall as [|c' cs' Hc Hall']; subst c' cs'.
    cbn [length] in Hn. rewrite Nat2Z.inj_succ in Hn.
    cbn [cycle_stream flat_map app]. fold (cycle_stream cycles).
    rewrite squat_cycle by (try assumption; lia).
    destruct (IH false (set_numOfSquats (numOfSquats g + 1)
                          (readMotion (snd c) g)) inp)
      as (l' & g' & Hrun & Hg'); [simpl; lia|simpl; lia|assumption|].
    exists l', g'. rewrite Hrun. rewrite emit_emit.
    split.
    + reflexivity.
    + rewrite Hg'. cbn [length]. rewrite Nat2Z.inj_succ. simpl. lia.
Qed.

Lemma no_melody_in_cycles (n : Z) (cycles : list (Sample * Sample)) :
  ~ In (PlayTone 392 91) (squat_cycles_trace n cycles).
Proof.
  revert n. induction cycles as [|c cycles IH]; intros n; simpl.
  - tauto.
  - intros [H|[H|[H|[H|[H|[H|H]]]]]]; try discriminate. exact (IH _ H).
Qed.

Lemma no_melody_in_start (k : Kind) :
  ~ In (PlayTone 392 91) (blinkAnimLed (colour k) ++ [ClearPixels]).
Proof.
  simpl. intros H.
  repeat (destruct H as [H|H]; [discriminate|]). exact H.
Qed.

Lemma no_melody_in_fill (c : Z) : ~ In (PlayTone 392 91) (setAllLeds c).
Proof.
  simpl. intros H.
  repeat (destruct H as [H|H]; [discriminate|]). exact H.
Qed.

(** C6. The squat detector, started with no squat counted, is fed ten full
    cycles, each a down sample (z<y) followed by an up sample (z>y).  It
    reads them all and returns with the counter at 10 and the flag set.
    The trace is the start animation, the ten cycles with one repetition
    event each, and then the routine-complete event: the melody occurs once
    in the trace, at its end.  On any shorter run of cycles the detector is
    still waiting and no melody has been played. *)
Theorem C6_squats_ten_cycles (g : Globals) (cycles : list (Sample * Sample)) :
  numOfSquats g = 0 ->
  length cycles = 10%nat ->
  Forall is_squat_cycle cycles ->
  (exists g',
      trackSquats g (cycle_stream cycles) =
      Returned g' []
        (blinkAnimLed BLUE ++ [ClearPixels]
         ++ squat_cycles_trace 0 cycles ++ routine_complete Squats)
      /\ numOfSquats g' = 10 /\ finishedSquats g' = true)
  /\ occurrences victorySong (trace_of (trackSquats g (cycle_stream cycles)))
     = 1%nat
  /\ (forall done todo,
        cycles = done ++ todo -> todo <> [] ->
        returned (trackSquats g (cycle_stream done)) = false
        /\ numOfSquats (globals_of (trackSquats g (cycle_stream done)))
           = Z.of_nat (length done)
        /\ occurrences victorySong
             (trace_of (trackSquats g (cycle_stream done))) = 0%nat).
Proof.
  intros H0 Hlen Hall.
  assert (Hfull : exists g',
      trackSquats g (cycle_stream cycles) =
      Returned g' []
        (blinkAnimLed BLUE ++ [ClearPixels]
         ++ squat_cycles_trace 0 cycles ++ routine_complete Squats)
      /\ numOfSquats g' = 10 /\ finishedSquats g' = true).
  { destruct (squat_cycles_run cycles true g [])
      as (l' & g' & Hrun & Hg'); [lia|rewrite H0, Hlen; (unfold REPS; simpl; lia)|assumption|].
    rewrite app_nil_r in Hrun. rewrite H0, Hlen in Hg'. simpl in Hg'.
    rewrite (detector_loop_exit Squats l' g' []) in Hrun
      by (unfold numOf; rewrite Hg'; unfold REPS; lia).
    exists (set_finishedSquats true g'). split; [|split; [exact Hg'|reflexivity]].
    change (trackSquats g (cycle_stream cycles))
      with (track Squats g (cycle_stream cycles)).
    rewrite track_unfold. simpl initial. rewrite Hrun, H0. simpl.
    rewrite app_nil_r. reflexivity. }
  split; [exact Hfull|]. split.
  - destruct Hfull as (g' & Hrun & _). rewrite Hrun. cbn [trace_of].
    unfold routine_complete.
    replace (blinkAnimLed BLUE ++ [ClearPixels]
             ++ squat_cycles_trace 0 cycles ++ setAllLeds (colour Squats) ++ victorySong)
      with (((blinkAnimLed (colour Squats) ++ [ClearPixels])
             ++ squat_cycles_trace 0 cycles ++ setAllLeds (colour Squats))
            ++ victorySong)
      by (rewrite <- !app_assoc; reflexivity).
    change victorySong with (PlayTone 392 91 :: tl victorySong) at 1.
    rewrite occurrences_skip; [reflexivity|].
    intros H. apply in_app_or in H. destruct H as [H|H].
    + exact (no_melody_in_start Squats H).
    + apply in_app_or in H. destruct H as [H|H].
      * exact (no_melody_in_cycles _ _ H).
      * exact (no_melody_in_fill _ H).
  - intros done todo Hsplit Htodo. subst cycles.
    apply Forall_app in Hall. destruct Hall as [Hdone _].
    rewrite length_app in Hlen.
    assert (Hlt : (length done < 10)%nat).
    { destruct todo; [now elim Htodo|]. simpl in Hlen. lia. }
    destruct (squat_cycles_run done true g [])
      as (l' & g' & Hrun & Hg'); [lia|rewrite H0; (unfold REPS; lia)|assumption|].
    rewrite app_nil_r in Hrun. rewrite H0 in Hg'. simpl in Hg'.
    assert (Hw : detector_loop Squats l' g' [] = Waiting g' []).
    { unfold detector_loop. apply sample_loop_nil. apply Z.ltb_lt.
      unfold numOf. rewrite Hg'. unfold REPS. lia. }
    rewrite Hw in Hrun.
    change (trackSquats g (cycle_stream done))
      with (track Squats g (cycle_stream done)).
    rewrite track_unfold. simpl initial. rewrite Hrun, H0.
    cbn [emit andThen returned globals_of trace_of].
    split; [reflexivity|]. split; [exact Hg'|].
    rewrite app_nil_r.
    rewrite <- (app_nil_r ((blinkAnimLed (colour Squats) ++ [ClearPixels])
                           ++ squat_cycles_trace 0 done)).
    change victorySong with (PlayTone 392 91 :: tl victorySong).
    rewrite occurrences_skip; [reflexivity|].
    intros H. apply in_app_or in H. destruct H as [H|H].
    + exact (no_melody_in_start Squats H).
    + exact (no_melody_in_cycles _ _ H).
Qed.

Lemma C6_squats_ten_cycles_witness :
  occurrences victorySong
    (trace_of (trackSquats power_on
                 (cycle_stream (repeat (sample 0 5 1, sample 0 1 5) 10))))
  = 1%nat.
Proof.
  apply (C6_squats_ten_cycles power_on (repeat (sample 0 5 1, sample 0 1 5) 10)).
  - reflexivity.
  - reflexivity.
  - simpl. repeat constructor.
Defined.

(** ** What a run touches *)

(** The loop of [track k] leaves the flags and the other counters alone. *)
Lemma detector_loop_frame (k : Kind) (inp : list Sample) (l : local (detector k))
    (g : Globals) :
  let g' := globals_of (detector_loop k l g inp) in
  (forall k', finished k' g' = finished k' g)
  /\ (forall k', k' <> k -> numOf k' g' = numOf k' g).
Proof.
  unfold detector_loop.
  apply (sample_loop_inv _ _
           (fun g' => (forall k', finished k' g' = finished k' g)
                      /\ (forall k', k' <> k -> numOf k' g' = numOf k' g))).
  - intros l0 g0 s _ [Hf Hn].
    destruct (body_globals k l0 (readMotion s g0)) as (Hf' & Hn' & _).
    split.
    + intros k'. rewrite Hf', finished_readMotion. apply Hf.
    + intros k' Hk. rewrite (Hn' k' Hk), numOf_readMotion. now apply Hn.
  - split; reflexivity.
Qed.

(** [track k] sets no flag but that of [k], and changes no counter but
    that of [k]. *)
Lemma track_frame (k : Kind) (g : Globals) (inp : list Sample) :
  let g' := globals_of (track k g inp) in
  (forall k', k' <> k -> finished k' g' = finished k' g)
  /\ (finished k g = true -> finished k g' = true)
  /\ (forall k', k' <> k -> numOf k' g' = numOf k' g).
Proof.
  cbv zeta. rewrite track_unfold, globals_of_emit.
  destruct (detector_loop_frame k inp (initial (detector k)) g) as [Hf Hn].
  destruct (detector_loop k (initial (detector k)) g inp) as [g' rest out|g' out];
    simpl in *.
  - split; [|split].
    + intros k' Hk. rewrite finished_set_finished_other by assumption. apply Hf.
    + intros _. apply finished_set_finished.
    + intros k' Hk. rewrite numOf_set_finished. now apply Hn.
  - split; [|split].
    + intros k' _. apply Hf.
    + intros H. now rewrite Hf.
    + exact Hn.
Qed.

(** When [track k] returns, the counter of [k] is at [REPS] and its flag
    is set. *)
Lemma track_returned (k : Kind) (g : Globals) (inp : list Sample) :
  0 <= numOf k g <= REPS ->
  returned (track k g inp) = true ->
  numOf k (globals_of (track k g inp)) = REPS
  /\ finished k (globals_of (track k g inp)) = true.
Proof.
  intros Hn. rewrite numOf_track. rewrite track_unfold, returned_emit.
  pose proof (detector_loop_bounds k inp (initial (detector k)) g Hn) as Hb.
  pose proof (sample_loop_returned (fun g => numOf k g <? REPS)
                (body (detector k)) inp (initial (detector k)) g) as Hr.
  fold (detector_loop k (initial (detector k)) g inp) in Hr.
  rewrite globals_of_emit.
  destruct (detector_loop k (initial (detector k)) g inp) as [g' rest out|g' out];
    simpl in *; [|discriminate].
  intros _. specialize (Hr eq_refl). apply Z.ltb_ge in Hr.
  split; [lia|apply finished_set_finished].
Qed.

Lemma globals_of_reloadMainMenu r :
  globals_of (andThen r reloadMainMenu) = globals_of r.
Proof. now destruct r. Qed.

(** The standing loop tracks jumping jacks or squats, nothing else. *)
Lemma standing_loop_frame (k : Kind) (inp : list Sample) :
  k = Situps \/ k = Pushups ->
  forall g,
    numOf k (globals_of (standing_loop g inp)) = numOf k g
    /\ finished k (globals_of (standing_loop g inp)) = finished k g.
Proof.
  intros Hk. induction inp as [|s inp IH]; intros g; [now split|].
  cbn [standing_loop]. rewrite globals_of_emit.
  rewrite <- (numOf_readMotion k s g), <- (finished_readMotion k s g).
  generalize (readMotion s g). clear g. intros g1.
  destruct (negb (finishedJumpJacks g1) && (accX g1 <= F.of_int (-15))%flt).
  { rewrite globals_of_reloadMainMenu.
    destruct (track_frame JumpingJacks g1 inp) as (Hf & _ & Hn).
    split; [apply Hn|apply Hf]; destruct Hk; subst k; discriminate. }
  destruct (negb (finishedSquats g1) && (accZ g1 < accY g1)%flt).
  { rewrite globals_of_reloadMainMenu.
    destruct (track_frame Squats g1 inp) as (Hf & _ & Hn).
    split; [apply Hn|apply Hf]; destruct Hk; subst k; discriminate. }
  apply IH.
Qed.

(** ** Classification *)

(** C2. The branch that [beginTracking] takes is a function of the one
    sample it reads and of the finished flags; the sample left in the
    globals by an earlier read plays no part.  If x<y<z the run goes on in
    the standing loop, which tracks jumping jacks or squats only: whatever
    follows, the counters and flags of sit-ups and push-ups stay as they
    are.  If y>z
    and z>x it tracks push-ups, unless they are finished, in which case
    nothing is tracked.  If x==y, y==z nothing is tracked: the run reloads
    the main menu and returns with every counter and flag as it was. *)
Theorem C2_classification (g : Globals) (s : Sample) (inp : list Sample) :
  (forall s0,
      beginTracking (readMotion s0 g) (s :: inp) = beginTracking g (s :: inp))
  /\ ((sx s < sy s)%flt = true -> (sy s < sz s)%flt = true ->
      beginTracking g (s :: inp) =
      emit [Motion s] (andThen (standing_loop (readMotion s g) inp)
                               reloadMainMenu)
      /\ forall k, k = Situps \/ k = Pushups ->
           numOf k (globals_of (beginTracking g (s :: inp))) = numOf k g
           /\ finished k (globals_of (beginTracking g (s :: inp)))
              = finished k g)
  /\ ((sy s > sz s)%flt = true -> (sz s > sx s)%flt = true ->
      beginTracking g (s :: inp) =
      emit [Motion s]
        (andThen (if finishedPushUps g
                  then Returned (readMotion s g) inp []
                  else trackPushUps (readMotion s g) inp)
                 reloadMainMenu))
  /\ ((sx s == sy s)%flt = true -> (sy s == sz s)%flt = true ->
      beginTracking g (s :: inp) =
      Returned (readMotion s g) inp
               (Motion s :: Delay (DEBOUNCE * 5) :: showMainMenu g)).
Proof.
  split; [reflexivity|]. split; [|split].
  - intros Hxy Hyz.
    assert (Hr : beginTracking g (s :: inp) =
                 emit [Motion s] (andThen (standing_loop (readMotion s g) inp)
                                          reloadMainMenu)).
    { unfold beginTracking. simpl accX. simpl accY. simpl accZ.
      now rewrite Hxy, Hyz. }
    split; [exact Hr|]. intros k Hk.
    rewrite Hr, globals_of_emit, globals_of_reloadMainMenu.
    rewrite <- (numOf_readMotion k s g), <- (finished_readMotion k s g).
    now apply standing_loop_frame.
  - intros Hyz Hzx. unfold beginTracking.
    simpl accX. simpl accY. simpl accZ. simpl finishedPushUps.
    simpl finishedSitUps.
    assert (H1 : (sy s < sz s)%flt = false) by (now apply gt_not_lt).
    assert (H2 : (sx s > sy s)%flt = false).
    { apply lt_asym. apply (lt_trans _ (sz s)); assumption. }
    rewrite H1, Hyz, Hzx, H2, andb_false_r.
    destruct (finishedPushUps g); simpl negb; cbn [andb];
      rewrite ?andb_false_r; reflexivity.
  - intros Hxy Hyz. unfold beginTracking.
    simpl accX. simpl accY. simpl accZ.
    destruct (eq_not_lt _ _ Hxy) as [H1 H2].
    destruct (eq_not_lt _ _ Hyz) as [H3 H4].
    unfold F.gt, F.lt in *. rewrite H1, H2, H4. simpl andb.
    rewrite !andb_false_r. reflexivity.
Qed.

Lemma C2_classification_witness :
  beginTracking power_on [sample 1 2 3; sample 0 0 0] =
  emit [Motion (sample 1 2 3)]
    (andThen (standing_loop (readMotion (sample 1 2 3) power_on) [sample 0 0 0])
             reloadMainMenu)
  /\ beginTracking power_on [sample 1 3 2; sample 0 0 0] =
     emit [Motion (sample 1 3 2)]
       (andThen (if finishedPushUps power_on
                 then Returned (readMotion (sample 1 3 2) power_on)
                               [sample 0 0 0] []
                 else trackPushUps (readMotion (sample 1 3 2) power_on)
                                   [sample 0 0 0])
                reloadMainMenu)
  /\ beginTracking power_on [sample 4 4 4; sample 0 0 0] =
     Returned (readMotion (sample 4 4 4) power_on) [sample 0 0 0]
       (Motion (sample 4 4 4) :: Delay (DEBOUNCE * 5) :: showMainMenu power_on).
Proof.
  split; [|split].
  - exact (proj1 (proj1 (proj2 (C2_classification power_on (sample 1 2 3)
                                  [sample 0 0 0])) eq_refl eq_refl)).
  - exact (proj1 (proj2 (proj2 (C2_classification power_on (sample 1 3 2)
                                  [sample 0 0 0]))) eq_refl eq_refl).
  - exact (proj2 (proj2 (proj2 (C2_classification power_on (sample 4 4 4)
                                  [sample 0 0 0]))) eq_refl eq_refl).
Defined.

(** ** Colours *)

Lemma colour_inj (k k' : Kind) : colour k = colour k' -> k = k'.
Proof. destruct k, k'; intros H; try reflexivity; discriminate. Qed.

Lemma colour_not_white (k : Kind) : colour k <> WHITE.
Proof. destruct k; discriminate. Qed.

Lemma no_pixel_setAllLeds c c' : c <> c' -> Forall (no_pixel_of c) (setAllLeds c').
Proof.
  intros Hc. unfold setAllLeds. apply Forall_map. apply Forall_forall.
  intros i _ p H. inversion H. congruence.
Qed.

Lemma no_pixel_blink c c' : c <> c' -> Forall (no_pixel_of c) (blinkAnimLed c').
Proof.
  intros Hc. unfold blinkAnimLed, setAllLeds. simpl.
  repeat constructor; intros p H; inversion H; congruence.
Qed.

Lemma no_pixel_victorySong c : Forall (no_pixel_of c) victorySong.
Proof. repeat constructor; intros p H; discriminate. Qed.

Lemma no_pixel_body (k k' : Kind) (l : local (detector k')) (g : Globals) :
  k <> k' -> Forall (no_pixel_of (colour k)) (events (body (detector k') l g)).
Proof.
  intros Hk. rewrite body_events.
  apply Forall_app. split; [|repeat constructor; intros p H; discriminate].
  destruct (back_to_reference k' l _); [|constructor].
  unfold rep_event. repeat constructor; intros p H; try discriminate.
  inversion H as [[Hp Hc]]. apply Hk. symmetry. now apply colour_inj.
Qed.

Lemma no_pixel_track (k k' : Kind) (g : Globals) (inp : list Sample) :
  k <> k' -> Forall (no_pixel_of (colour k)) (trace_of (track k' g inp)).
Proof.
  intros Hk.
  assert (Hc : colour k <> colour k')
    by (intros H; apply Hk; now apply colour_inj).
  rewrite track_unfold, trace_of_emit.
  apply Forall_app. split.
  { apply Forall_app. split; [now apply no_pixel_blink|].
    repeat constructor; intros p H; discriminate. }
  pose proof (sample_loop_trace (fun g => numOf k' g <? REPS)
                (body (detector k')) (no_pixel_of (colour k))
                ltac:(intros s p H; discriminate)
                ltac:(intros l0 g0; now apply no_pixel_body)
                inp (initial (detector k')) g) as Hl.
  fold (detector_loop k' (initial (detector k')) g inp) in Hl.
  destruct (detector_loop k' (initial (detector k')) g inp) as [g' rest out|g' out];
    simpl in *; [|exact Hl].
  apply Forall_app. split; [exact Hl|].
  unfold routine_complete. apply Forall_app. split.
  - now apply no_pixel_setAllLeds.
  - apply no_pixel_victorySong.
Qed.

Lemma no_pixel_showMainMenu (k : Kind) (g : Globals) :
  finished k g = true -> Forall (no_pixel_of (colour k)) (showMainMenu g).
Proof.
  intros Hf. unfold showMainMenu.
  repeat (apply Forall_app; split).
  - repeat constructor; intros p H; discriminate.
  - destruct (finishedJumpJacks g) eqn:E; simpl; [constructor|].
    destruct k; simpl in Hf; try congruence;
      repeat constructor; intros p H; discriminate.
  - destruct (finishedSquats g) eqn:E; simpl; [constructor|].
    destruct k; simpl in Hf; try congruence;
      repeat constructor; intros p H; discriminate.
  - destruct (finishedSitUps g) eqn:E; simpl; [constructor|].
    destruct k; simpl in Hf; try congruence;
      repeat constructor; intros p H; discriminate.
  - destruct (finishedPushUps g) eqn:E; simpl; [constructor|].
    destruct k; simpl in Hf; try congruence;
      repeat constructor; intros p H; discriminate.
Qed.

(** ** A finished exercise stays out of the way *)

Ltac other_event := intros ? H; discriminate H.

Lemma keeps_emit k n pre r :
  Forall (no_pixel_of (colour k)) pre -> keeps k n r -> keeps k n (emit pre r).
Proof.
  intros Hpre (Hf & Hn & Ht). unfold keeps.
  rewrite globals_of_emit, trace_of_emit.
  repeat split; try assumption. apply Forall_app. now split.
Qed.

Lemma keeps_andThen k n r cont :
  keeps k n r ->
  (forall g rest, finished k g = true -> numOf k g = n ->
                  keeps k n (cont g rest)) ->
  keeps k n (andThen r cont).
Proof.
  intros (Hf & Hn & Ht) Hc.
  destruct r as [g rest out|g out]; simpl in *.
  - apply keeps_emit; [assumption|]. now apply Hc.
  - repeat split; assumption.
Qed.

Lemma keeps_track k k' g inp :
  k <> k' -> finished k g = true -> keeps k (numOf k g) (track k' g inp).
Proof.
  intros Hk Hf. destruct (track_frame k' g inp) as (Hfo & _ & Hno).
  repeat split.
  - rewrite Hfo; assumption.
  - now apply Hno.
  - now apply no_pixel_track.
Qed.

Lemma keeps_reloadMainMenu k g rest :
  finished k g = true -> keeps k (numOf k g) (reloadMainMenu g rest).
Proof.
  intros Hf. repeat split; try assumption. simpl.
  constructor; [other_event|]. now apply no_pixel_showMainMenu.
Qed.

Lemma keeps_standing_loop k inp : forall g,
  finished k g = true -> keeps k (numOf k g) (standing_loop g inp).
Proof.
  induction inp as [|s inp IH]; intros g Hf.
  - repeat split; [assumption|constructor].
  - cbn [standing_loop].
    apply keeps_emit; [repeat constructor; other_event|].
    rewrite <- (numOf_readMotion k s g).
    rewrite <- (finished_readMotion k s g) in Hf.
    generalize dependent (readMotion s g). clear g. intros g1 Hf.
    destruct (negb (finishedJumpJacks g1) && (accX g1 <= F.of_int (-15))%flt)
      eqn:Ej.
    + apply andb_prop in Ej. destruct Ej as [Ej _].
      apply negb_true_iff in Ej.
      assert (Hk : k <> JumpingJacks)
        by (intros ->; simpl in Hf; congruence).
      apply keeps_andThen; [exact (keeps_track k JumpingJacks g1 inp Hk Hf)|].
      intros g' rest Hf' Hn'. rewrite <- Hn'. now apply keeps_reloadMainMenu.
    + destruct (negb (finishedSquats g1) && (accZ g1 < accY g1)%flt) eqn:Es.
      * apply andb_prop in Es. destruct Es as [Es _].
        apply negb_true_iff in Es.
        assert (Hk : k <> Squats) by (intros ->; simpl in Hf; congruence).
        apply keeps_andThen; [exact (keeps_track k Squats g1 inp Hk Hf)|].
        intros g' rest Hf' Hn'. rewrite <- Hn'. now apply keeps_reloadMainMenu.
      * now apply IH.
Qed.

Lemma keeps_beginTracking k g inp :
  finished k g = true -> keeps k (numOf k g) (beginTracking g inp).
Proof.
  intros Hf. destruct inp as [|s inp].
  - repeat split; [assumption|constructor].
  - cbn [beginTracking].
    apply keeps_emit; [repeat constructor; other_event|].
    rewrite <- (numOf_readMotion k s g).
    rewrite <- (finished_readMotion k s g) in Hf.
    generalize dependent (readMotion s g). clear g. intros g1 Hf.
    apply keeps_andThen.
    2:{ intros g' rest Hf' Hn'. rewrite <- Hn'. now apply keeps_reloadMainMenu. }
    destruct ((accX g1 < accY g1)%flt && (accY g1 < accZ g1)%flt).
    { now apply keeps_standing_loop. }
    destruct (negb (finishedPushUps g1) && (accY g1 > accZ g1)%flt
              && (accZ g1 > accX g1)%flt) eqn:Ep.
    { apply andb_prop in Ep. destruct Ep as [Ep _].
      apply andb_prop in Ep. destruct Ep as [Ep _].
      apply negb_true_iff in Ep.
      assert (Hk : k <> Pushups) by (intros ->; simpl in Hf; congruence).
      exact (keeps_track k Pushups g1 inp Hk Hf). }
    destruct (negb (finishedSitUps g1) && (accZ g1 > accX g1)%flt
              && (accX g1 > accY g1)%flt) eqn:Es.
    { apply andb_prop in Es. destruct Es as [Es _].
      apply andb_prop in Es. destruct Es as [Es _].
      apply negb_true_iff in Es.
      assert (Hk : k <> Situps) by (intros ->; simpl in Hf; congruence).
      exact (keeps_track k Situps g1 inp Hk Hf). }
    repeat split; [assumption|constructor].
Qed.

Lemma keeps_loop k b g inp :
  finished k g = true -> keeps k (numOf k g) (loop b g inp).
Proof.
  intros Hf. unfold loop.
  destruct (leftButton b || rightButton b).
  - apply keeps_emit.
    + apply Forall_app. split.
      * apply no_pixel_setAllLeds. apply colour_not_white.
      * repeat constructor; other_event.
    + apply keeps_andThen; [now apply keeps_beginTracking|].
      intros g' rest Hf' Hn'.
      repeat split; try assumption. repeat constructor; other_event.
  - repeat split; try assumption. repeat constructor; other_event.
Qed.

Lemma keeps_loops k bs : forall g inp,
  finished k g = true -> keeps k (numOf k g) (loops bs g inp).
Proof.
  induction bs as [|b bs IH]; intros g inp Hf.
  - repeat split; [assumption|constructor].
  - cbn [loops]. apply keeps_andThen; [now apply keeps_loop|].
    intros g' rest Hf' Hn'. rewrite <- Hn'. now apply IH.
Qed.

Lemma blink_sets_pixel (c : Z) : In (SetPixelColor 0 c) (blinkAnimLed c).
Proof. right. left. reflexivity. Qed.

(** C5. Once the finished flag of an exercise is set, it is still set
    after any further calls of [loop()], on any samples, returned or not;
    in all that time no session of that exercise starts -- no pixel is set
    to its colour, so its start animation does not occur -- and its counter
    does not move; and [showMainMenu] does not set the two pixels of that
    exercise. *)
Theorem C5_finished_is_final (k : Kind) (g : Globals) :
  finished k g = true ->
  (forall bs inp,
      let r := loops bs g inp in
      finished k (globals_of r) = true
      /\ numOf k (globals_of r) = numOf k g
      /\ Forall (no_pixel_of (colour k)) (trace_of r)
      /\ ~ session_started k (trace_of r))
  /\ (forall inp, ~ session_started k (trace_of (beginTracking g inp)))
  /\ (forall p c, In p (menu_pixels k) ->
                  ~ In (SetPixelColor p c) (showMainMenu g)).
Proof.
  intros Hf.
  assert (Hss : forall r, keeps k (numOf k g) r ->
                          ~ session_started k (trace_of r)).
  { intros r (_ & _ & Ht) (pre & post & Heq). rewrite Heq in Ht.
    rewrite Forall_forall in Ht.
    refine (Ht (SetPixelColor 0 (colour k)) _ 0 eq_refl).
    apply in_or_app. right. apply in_or_app. left. apply blink_sets_pixel. }
  split; [|split].
  - intros bs inp r.
    pose proof (keeps_loops k bs g inp Hf) as Hk.
    destruct Hk as (H1 & H2 & H3).
    repeat split; try assumption.
    apply Hss. repeat split; assumption.
  - intros inp. apply Hss. now apply keeps_beginTracking.
  - intros p c Hp. unfold showMainMenu.
    destruct k; simpl in Hf, Hp; rewrite Hf; simpl;
      destruct (finishedJumpJacks g), (finishedSquats g),
        (finishedSitUps g), (finishedPushUps g); simpl;
      intros H;
      repeat (destruct H as [H|H];
              [try discriminate; inversion H; subst; intuition lia|]);
      try exact H.
Qed.

Lemma C5_finished_is_final_witness :
  let g := set_finishedSquats true (set_numOfSquats 10 power_on) in
  let inp := [sample 1 2 3; sample 0 5 1; sample 0 1 5] in
  finished Squats g = true
  /\ finished Squats (globals_of (loops [pressed; pressed] g inp)) = true
  /\ ~ session_started Squats (trace_of (loops [pressed; pressed] g inp)).
Proof.
  cbv zeta.
  assert (H : finished Squats (set_finishedSquats true (set_numOfSquats 10 power_on))
              = true) by reflexivity.
  split; [exact H|].
  pose proof (proj1 (C5_finished_is_final Squats _ H) [pressed; pressed]
                [sample 1 2 3; sample 0 5 1; sample 0 1 5]) as Hr.
  cbv zeta in Hr. destruct Hr as (H1 & _ & _ & H4).
  split; [exact H1|exact H4].
Defined.

(** ** Back at the main menu *)

Lemma idle_inv_power_on : idle_inv power_on.
Proof. intros k. right. destruct k; split; reflexivity. Qed.

Lemma idle_inv_readMotion s g : idle_inv g -> idle_inv (readMotion s g).
Proof.
  intros H k. rewrite finished_readMotion, numOf_readMotion. apply H.
Qed.

Lemma returns_idle_emit pre r : returns_idle r -> returns_idle (emit pre r).
Proof. unfold returns_idle. now rewrite returned_emit, globals_of_emit. Qed.

Lemma returns_idle_andThen r cont :
  returns_idle r ->
  (forall g rest, idle_inv g -> returns_idle (cont g rest)) ->
  returns_idle (andThen r cont).
Proof.
  intros Hr Hc. destruct r as [g rest out|g out]; simpl.
  - apply returns_idle_emit. apply Hc. now apply Hr.
  - intros H. discriminate H.
Qed.

Lemma returns_idle_reloadMainMenu g rest :
  idle_inv g -> returns_idle (reloadMainMenu g rest).
Proof. intros H _. exact H. Qed.

Lemma Kind_eq_dec (k k' : Kind) : {k = k'} + {k <> k'}.
Proof. decide equality. Qed.

(** A tracking function that is entered from the main menu for an
    unfinished exercise returns, if it does, with that exercise finished
    and its counter at [REPS]. *)
Lemma returns_idle_track k g inp :
  idle_inv g -> finished k g = false -> returns_idle (track k g inp).
Proof.
  intros Hi Hf Hret.
  assert (Hn : numOf k g = 0) by (destruct (Hi k) as [[H _]|[_ H]]; congruence).
  destruct (track_returned k g inp ltac:(unfold REPS; lia) Hret) as [Hn' Hf'].
  destruct (track_frame k g inp) as (Hfo & _ & Hno).
  intros k'. destruct (Kind_eq_dec k' k) as [->|Hk].
  - left. now split.
  - rewrite (Hfo k' Hk), (Hno k' Hk). apply Hi.
Qed.

Lemma returns_idle_standing_loop inp : forall g,
  idle_inv g -> returns_idle (standing_loop g inp).
Proof.
  induction inp as [|s inp IH]; intros g Hi.
  - intros H. discriminate H.
  - cbn [standing_loop]. apply returns_idle_emit.
    apply (idle_inv_readMotion s) in Hi.
    generalize dependent (readMotion s g). clear g. intros g1 Hi.
    destruct (negb (finishedJumpJacks g1) && (accX g1 <= F.of_int (-15))%flt)
      eqn:Ej.
    + apply andb_prop in Ej. destruct Ej as [Ej _].
      apply negb_true_iff in Ej.
      apply returns_idle_andThen.
      * exact (returns_idle_track JumpingJacks g1 inp Hi Ej).
      * intros; now apply returns_idle_reloadMainMenu.
    + destruct (negb (finishedSquats g1) && (accZ g1 < accY g1)%flt) eqn:Es.
      * apply andb_prop in Es. destruct Es as [Es _].
        apply negb_true_iff in Es.
        apply returns_idle_andThen.
        -- exact (returns_idle_track Squats g1 inp Hi Es).
        -- intros; now apply returns_idle_reloadMainMenu.
      * now apply IH.
Qed.

Lemma returns_idle_beginTracking g inp :
  idle_inv g -> returns_idle (beginTracking g inp).
Proof.
  intros Hi. destruct inp as [|s inp].
  - intros H. discriminate H.
  - cbn [beginTracking]. apply returns_idle_emit.
    apply (idle_inv_readMotion s) in Hi.
    generalize dependent (readMotion s g). clear g. intros g1 Hi.
    apply returns_idle_andThen.
    2:{ intros; now apply returns_idle_reloadMainMenu. }
    destruct ((accX g1 < accY g1)%flt && (accY g1 < accZ g1)%flt).
    { now apply returns_idle_standing_loop. }
    destruct (negb (finishedPushUps g1) && (accY g1 > accZ g1)%flt
              && (accZ g1 > accX g1)%flt) eqn:Ep.
    { apply andb_prop in Ep. destruct Ep as [Ep _].
      apply andb_prop in Ep. destruct Ep as [Ep _].
      apply negb_true_iff in Ep.
      exact (returns_idle_track Pushups g1 inp Hi Ep). }
    destruct (negb (finishedSitUps g1) && (accZ g1 > accX g1)%flt
              && (accX g1 > accY g1)%flt) eqn:Es.
    { apply andb_prop in Es. destruct Es as [Es _].
      apply andb_prop in Es. destruct Es as [Es _].
      apply negb_true_iff in Es.
      exact (returns_idle_track Situps g1 inp Hi Es). }
    intros _. exact Hi.
Qed.

Lemma returns_idle_loop b g inp : idle_inv g -> returns_idle (loop b g inp).
Proof.
  intros Hi. unfold loop. destruct (leftButton b || rightButton b).
  - apply returns_idle_emit. apply returns_idle_andThen.
    + now apply returns_idle_beginTracking.
    + intros g' rest Hi' _. exact Hi'.
  - intros _. exact Hi.
Qed.

Lemma returns_idle_loops bs : forall g inp,
  idle_inv g -> returns_idle (loops bs g inp).
Proof.
  induction bs as [|b bs IH]; intros g inp Hi.
  - intros _. exact Hi.
  - cbn [loops]. apply returns_idle_andThen.
    + now apply returns_idle_loop.
    + intros g' rest Hi'. now apply IH.
Qed.

(** C9. Whenever the sketch is back at the main menu -- [setup()] and any
    number of calls of [loop()] have returned -- each exercise is either
    finished with its counter at 10 or not finished with its counter at 0:
    the flag is set exactly when the counter is 10, and no counter has a
    value strictly between 0 and 10. *)
Theorem C9_idle_counters (bs : list Buttons) (inp : list Sample) :
  returned (sketch bs inp) = true ->
  forall k,
    let g := globals_of (sketch bs inp) in
    (finished k g = true <-> numOf k g = 10)
    /\ (numOf k g = 0 \/ numOf k g = 10).
Proof.
  intros Hret k g.
  assert (Hi : idle_inv g).
  { subst g. unfold sketch in *. cbn [setup] in *.
    rewrite returned_emit in Hret. rewrite globals_of_emit.
    exact (returns_idle_loops bs power_on inp idle_inv_power_on Hret). }
  destruct (Hi k) as [[Hf Hn]|[Hf Hn]]; unfold REPS in Hn; rewrite Hf, Hn.
  - split; [split; reflexivity|now right].
  - split; [split; intros H; discriminate H|now left].
Qed.

Lemma C9_idle_counters_witness :
  let bs := [mkButtons false false; pressed; mkButtons false true] in
  let inp := situps_routine ++ [sample 4 4 4] in
  returned (sketch bs inp) = true
  /\ (finished Situps (globals_of (sketch bs inp)) = true
      <-> numOf Situps (globals_of (sketch bs inp)) = 10)
  /\ finished Situps (globals_of (sketch bs inp)) = true.
Proof.
  cbv zeta.
  assert (H : returned (sketch [mkButtons false false; pressed; mkButtons false true]
                          (situps_routine ++ [sample 4 4 4])) = true)
    by (vm_compute; reflexivity).
  split; [exact H|]. split.
  - exact (proj1 (C9_idle_counters _ _ H Situps)).
  - vm_compute. reflexivity.
Defined.

(** ** Standing with both standing exercises finished *)

Lemma andThen_assoc r k1 k2 :
  andThen (andThen r k1) k2 = andThen r (fun g rest => andThen (k1 g rest) k2).
Proof.
  destruct r as [g rest out|g out]; simpl; [|reflexivity].
  now rewrite andThen_emit.
Qed.

Lemma andThen_ext r k1 k2 :
  (forall g rest, k1 g rest = k2 g rest) -> andThen r k1 = andThen r k2.
Proof. intros H. destruct r; simpl; [now rewrite H|reflexivity]. Qed.

Lemma loops_app bs1 bs2 : forall g inp,
  loops (bs1 ++ bs2) g inp = andThen (loops bs1 g inp) (loops bs2).
Proof.
  induction bs1 as [|b bs1 IH]; intros g inp; simpl.
  - now destruct (loops bs2 g inp).
  - rewrite andThen_assoc. apply andThen_ext. intros g' rest. apply IH.
Qed.

Lemma finished_read_all k inp : forall g,
  finished k (read_all inp g) = finished k g.
Proof.
  unfold read_all. induction inp as [|s inp IH]; intros g; [reflexivity|].
  simpl. rewrite IH. apply finished_readMotion.
Qed.

Lemma numOf_read_all k inp : forall g,
  numOf k (read_all inp g) = numOf k g.
Proof.
  unfold read_all. induction inp as [|s inp IH]; intros g; [reflexivity|].
  simpl. rewrite IH. apply numOf_readMotion.
Qed.

(** With both flags set, neither [break] of the standing loop can be
    reached: the loop reads sample after sample. *)
Lemma standing_loop_blocks inp : forall g,
  finishedJumpJacks g = true -> finishedSquats g = true ->
  standing_loop g inp =
  Waiting (read_all inp g) (flat_map (fun s => [Motion s; Delay DEBOUNCE]) inp).
Proof.
  induction inp as [|s inp IH]; intros g Hj Hs; [reflexivity|].
  cbn [standing_loop]. simpl finishedJumpJacks. simpl finishedSquats.
  rewrite Hj, Hs. simpl negb. cbn [andb].
  rewrite IH by assumption. reflexivity.
Qed.

Lemma beginTracking_blocks g s inp :
  finishedJumpJacks g = true -> finishedSquats g = true ->
  (sx s < sy s)%flt = true -> (sy s < sz s)%flt = true ->
  beginTracking g (s :: inp) =
  Waiting (read_all (s :: inp) g)
          (Motion s :: flat_map (fun s => [Motion s; Delay DEBOUNCE]) inp).
Proof.
  intros Hj Hs Hxy Hyz.
  unfold beginTracking. simpl accX. simpl accY. simpl accZ.
  rewrite Hxy, Hyz. cbn [andb].
  rewrite standing_loop_blocks by assumption. reflexivity.
Qed.

(** The other ways in which nothing is tracked do return to the main
    menu. *)
Lemma nothing_tracked_returns g s inp :
  ((sx s < sy s)%flt && (sy s < sz s)%flt) = false ->
  (negb (finishedPushUps g) && (sy s > sz s)%flt && (sz s > sx s)%flt) = false ->
  (negb (finishedSitUps g) && (sz s > sx s)%flt && (sx s > sy s)%flt) = false ->
  beginTracking g (s :: inp) =
  Returned (readMotion s g) inp
           (Motion s :: Delay (DEBOUNCE * 5) :: showMainMenu g).
Proof.
  intros H1 H2 H3. unfold beginTracking.
  simpl accX. simpl accY. simpl accZ.
  simpl finishedPushUps. simpl finishedSitUps.
  now rewrite H1, H2, H3.
Qed.

(** Two button presses and the two routines take the sketch from
    power-on to [both_standing_done], with the main menu reloaded. *)
Lemma two_routines_done (s : Sample) (rest : list Sample) :
  loops [pressed; pressed] power_on
        (jumping_jacks_routine ++ squats_routine ++ s :: rest)
  = Returned both_standing_done (s :: rest)
      (trace_of (loops [pressed; pressed] power_on
                   (jumping_jacks_routine ++ squats_routine))).
Proof. vm_compute. reflexivity. Qed.

(** C3, on the code.  The user completes the jumping-jack routine and the
    squat routine, then presses a button while standing (x<y<z).  Nothing
    is actionable, but the sketch does not return to the main menu:
    whatever samples follow, the third call of [loop()] is still in the
    standing loop, reading them one by one, and no session starts. *)
Theorem C3_standing_both_finished_never_returns (inp : list Sample) :
  let r := sketch [pressed; pressed; pressed]
             (jumping_jacks_routine ++ squats_routine ++ sample 1 2 3 :: inp) in
  returned r = false
  /\ finishedJumpJacks (globals_of r) = true
  /\ finishedSquats (globals_of r) = true
  /\ exists out,
       trace_of r =
       out ++ setAllLeds WHITE ++ [PlayTone 440 100]
       ++ Motion (sample 1 2 3)
       :: flat_map (fun s => [Motion s; Delay DEBOUNCE]) inp.
Proof.
  cbv zeta. unfold sketch. cbn [setup].
  change [pressed; pressed; pressed] with ([pressed; pressed] ++ [pressed]).
  rewrite loops_app.
  rewrite two_routines_done.
  cbn [andThen loops]. unfold loop. cbn [pressed leftButton orb].
  rewrite beginTracking_blocks by reflexivity.
  cbn [andThen emit returned globals_of trace_of].
  split; [reflexivity|]. split; [|split].
  - exact (finished_read_all JumpingJacks _ _).
  - exact (finished_read_all Squats _ _).
  - eexists. rewrite !app_assoc. reflexivity.
Qed.

(** Once the sketch is in the standing loop with both flags set, no later
    button press matters: the call of [loop()] that entered it never
    returns. *)
Lemma loops_never_return bs g s inp :
  finishedJumpJacks g = true -> finishedSquats g = true ->
  (sx s < sy s)%flt = true -> (sy s < sz s)%flt = true ->
  returned (loops (pressed :: bs) g (s :: inp)) = false.
Proof.
  intros Hj Hs Hxy Hyz. cbn [loops]. unfold loop.
  cbn [pressed leftButton orb].
  rewrite beginTracking_blocks by assumption. reflexivity.
Qed.

(** * Further properties of the sketch *)

(** ** The main menu *)

(** X1. [showMainMenu] clears the pixels first and then sets, for each
    exercise, the two pixels of its pair to its colour exactly when the
    exercise is not finished; it sets no other pixel and uses no other
    colour. *)
Theorem X1_menu_shows_unfinished (g : Globals) :
  (exists rest, showMainMenu g = ClearPixels :: rest /\ ~ In ClearPixels rest)
  /\ (forall k p, In p (menu_pixels k) ->
        (In (SetPixelColor p (colour k)) (showMainMenu g)
         <-> finished k g = false))
  /\ (forall p c, In (SetPixelColor p c) (showMainMenu g) ->
        exists k, finished k g = false /\ In p (menu_pixels k) /\ c = colour k).
Proof.
  unfold showMainMenu. split; [|split].
  - eexists. split; [reflexivity|].
    destruct (finishedJumpJacks g), (finishedSquats g), (finishedSitUps g),
      (finishedPushUps g); simpl; intros H;
      repeat (destruct H as [H|H]; [discriminate H|]); exact H.
  - intros k p Hp.
    destruct k; simpl in Hp |- *;
      destruct (finishedJumpJacks g), (finishedSquats g), (finishedSitUps g),
        (finishedPushUps g); simpl;
      (split; [intros H; try reflexivity;
               repeat (destruct H as [H|H]; [discriminate H|]);
               try (exfalso; exact H)
              |intros H; try discriminate H;
               destruct Hp as [<-|[<-|[]]]; auto 12]).
  - intros p c.
    destruct (finishedJumpJacks g) eqn:E1, (finishedSquats g) eqn:E2,
      (finishedSitUps g) eqn:E3, (finishedPushUps g) eqn:E4; simpl; intros H;
      repeat (destruct H as [H|H];
              [try discriminate H; inversion H; subst;
               first [ exists JumpingJacks; simpl; now auto
                     | exists Squats; simpl; now auto
                     | exists Situps; simpl; now auto
                     | exists Pushups; simpl; now auto ]|]);
      destruct H.
Qed.

(** ** Outcomes of the tracking loops *)

Lemma sample_loop_waiting {L : Type} (cond : Globals -> bool)
    (body : L -> Globals -> L * Globals * list Event) (inp : list Sample) :
  forall l g,
    returned (sample_loop cond body l g inp) = false ->
    cond (globals_of (sample_loop cond body l g inp)) = true.
Proof.
  induction inp as [|s inp IH]; intros l g.
  - simpl. destruct (cond g) eqn:Hc; simpl; congruence.
  - destruct (cond g) eqn:Hc.
    + rewrite sample_loop_cons by assumption.
      rewrite returned_emit, globals_of_emit. apply IH.
    + rewrite sample_loop_exit by assumption. discriminate.
Qed.

Lemma outcome_cons k l g s inp :
  numOf k g < REPS ->
  outcome k (detector_loop k l g (s :: inp)) =
  outcome k (detector_loop k (fst (feed k s (l, g))) (snd (feed k s (l, g))) inp).
Proof.
  intros Hn. rewrite detector_loop_cons by assumption.
  unfold outcome. now rewrite returned_emit, globals_of_emit.
Qed.

Lemma outcome_exit k l g inp :
  REPS <= numOf k g -> outcome k (detector_loop k l g inp) = (true, numOf k g).
Proof. intros Hn. now rewrite detector_loop_exit. Qed.

Lemma outcome_nil k l g :
  numOf k g < REPS -> outcome k (detector_loop k l g []) = (false, numOf k g).
Proof.
  intros Hn. unfold detector_loop.
  rewrite sample_loop_nil; [reflexivity|now apply Z.ltb_lt].
Qed.

(** The outcome of the loop depends on the globals through the counter
    only. *)
Lemma outcome_track k g inp :
  outcome k (track k g inp) =
  outcome k (detector_loop k (initial (detector k)) g inp).
Proof.
  unfold outcome. rewrite numOf_track. f_equal.
  rewrite track_unfold, returned_emit.
  now destruct (detector_loop k (initial (detector k)) g inp).
Qed.

(** ** Phase detectors: holding a position *)

(** A sample of the active phase puts the detector in the active phase and
    counts nothing, whatever the phase was. *)
Lemma feed_active (k : Kind) (l : local (detector k)) (g : Globals) (s : Sample) :
  k <> JumpingJacks -> shows_active k s = true ->
  active (detector k) (fst (feed k s (l, g))) = true
  /\ numOf k (snd (feed k s (l, g))) = numOf k g.
Proof.
  intros Hk Hs. unfold feed, new_local, new_globals. cbn [fst snd].
  destruct k; [now elim Hk| | |]; simpl in l, Hs |- *.
  - unfold squats_body; simpl. rewrite Hs, (lt_not_gt _ _ Hs).
    destruct l; split; reflexivity.
  - unfold sitUps_body; simpl. rewrite Hs, (lt_not_gt _ _ Hs).
    destruct l; split; reflexivity.
  - unfold pushUps_body; simpl. rewrite Hs, (lt_not_gt _ _ Hs).
    destruct l; split; reflexivity.
Qed.

(** A sample of the reference phase puts the detector in the reference
    phase; it counts when the detector was in the active phase. *)
Lemma feed_reference (k : Kind) (l : local (detector k)) (g : Globals)
    (s : Sample) :
  k <> JumpingJacks -> shows_reference k s = true -> 0 <= numOf k g < REPS ->
  active (detector k) (fst (feed k s (l, g))) = false
  /\ numOf k (snd (feed k s (l, g))) =
     numOf k g + (if active (detector k) l then 1 else 0).
Proof.
  intros Hk Hs Hn. unfold feed, new_local, new_globals. cbn [fst snd].
  assert (Hi : incr (numOf k g) = numOf k g + 1)
    by (apply incr_small; unfold REPS in Hn; lia).
  destruct k; [now elim Hk| | |]; simpl in l, Hs, Hi, Hn |- *.
  - unfold squats_body; simpl. rewrite Hs, (gt_not_lt _ _ Hs).
    destruct l; simpl; split; try reflexivity; lia.
  - unfold sitUps_body; simpl. rewrite Hs, (gt_not_lt _ _ Hs).
    destruct l; simpl; split; try reflexivity; lia.
  - unfold pushUps_body; simpl. rewrite Hs, (gt_not_lt _ _ Hs).
    destruct l; simpl; split; try reflexivity; lia.
Qed.

Section PhaseDetector.

Variable k : Kind.
Hypothesis Hk : k <> JumpingJacks.

(** Samples of the active phase, from any phase. *)
Lemma active_run (a inp : list Sample) :
  Forall (fun s => shows_active k s = true) a ->
  forall l g,
    0 <= numOf k g < REPS ->
    a <> [] \/ active (detector k) l = true ->
    exists l' g',
      outcome k (detector_loop k l g (a ++ inp)) =
      outcome k (detector_loop k l' g' inp)
      /\ active (detector k) l' = true /\ numOf k g' = numOf k g.
Proof.
  induction 1 as [|s a Hs Ha IH]; intros l g Hn Hl.
  - destruct Hl as [Hl|Hl]; [now elim Hl|]. exists l, g. auto.
  - destruct (feed_active k l g s Hk Hs) as [Hl' Hn'].
    cbn [app]. rewrite outcome_cons by lia.
    destruct (IH (fst (feed k s (l, g))) (snd (feed k s (l, g))))
      as (l' & g' & Ho & Hal & Hng); [lia|now right|].
    exists l', g'. rewrite Ho. repeat split; [assumption|lia].
Qed.

(** Samples of the reference phase, from the reference phase: nothing
    happens. *)
Lemma reference_run_idle (r inp : list Sample) :
  Forall (fun s => shows_reference k s = true) r ->
  forall l g,
    0 <= numOf k g <= REPS ->
    active (detector k) l = false ->
    exists l' g',
      outcome k (detector_loop k l g (r ++ inp)) =
      outcome k (detector_loop k l' g' inp)
      /\ active (detector k) l' = false /\ numOf k g' = numOf k g.
Proof.
  induction 1 as [|s r Hs Hr IH]; intros l g Hn Hl.
  - exists l, g. auto.
  - destruct (Z.eq_dec (numOf k g) REPS) as [He|Hne].
    + exists l, g. rewrite !outcome_exit by lia. auto.
    + destruct (feed_reference k l g s Hk Hs ltac:(lia)) as [Hl' Hn'].
      rewrite Hl in Hn'.
      cbn [app]. rewrite outcome_cons by lia.
      destruct (IH (fst (feed k s (l, g))) (snd (feed k s (l, g))))
        as (l' & g' & Ho & Hal & Hng); [lia|assumption|].
      exists l', g'. rewrite Ho. repeat split; [assumption|lia].
Qed.

(** One repetition with dwelling counts once. *)
Lemma dwell_cycle_counts (c : list Sample * list Sample) (inp : list Sample) :
  dwell_cycle k c ->
  forall l g,
    0 <= numOf k g < REPS ->
    exists l' g',
      outcome k (detector_loop k l g ((fst c ++ snd c) ++ inp)) =
      outcome k (detector_loop k l' g' inp)
      /\ active (detector k) l' = false /\ numOf k g' = numOf k g + 1.
Proof.
  intros (Ha0 & Hr0 & Ha & Hr) l g Hn.
  rewrite <- app_assoc.
  destruct (active_run (fst c) (snd c ++ inp) Ha l g Hn (or_introl Ha0))
    as (l1 & g1 & Ho1 & Hl1 & Hn1).
  rewrite Ho1.
  destruct (snd c) as [|s r]; [now elim Hr0|].
  inversion Hr as [|s' r' Hs Hr']; subst s' r'.
  destruct (feed_reference k l1 g1 s Hk Hs ltac:(lia)) as [Hl2 Hn2].
  rewrite Hl1 in Hn2.
  cbn [app]. rewrite outcome_cons by lia.
  destruct (reference_run_idle r inp Hr'
              (fst (feed k s (l1, g1))) (snd (feed k s (l1, g1))))
    as (l' & g' & Ho & Hal & Hng); [lia|assumption|].
  exists l', g'. rewrite Ho. repeat split; [assumption|lia].
Qed.

Lemma dwell_cycles_count (cycles : list (list Sample * list Sample))
    (inp : list Sample) :
  Forall (dwell_cycle k) cycles ->
  forall l g,
    0 <= numOf k g ->
    numOf k g + Z.of_nat (length cycles) <= REPS ->
    exists l' g',
      outcome k (detector_loop k l g (dwell_stream cycles ++ inp)) =
      outcome k (detector_loop k l' g' inp)
      /\ numOf k g' = numOf k g + Z.of_nat (length cycles).
Proof.
  induction 1 as [|c cycles Hc Hcs IH]; intros l g H0 Hn.
  - exists l, g. split; [reflexivity|simpl; lia].
  - cbn [length] in Hn. rewrite Nat2Z.inj_succ in Hn.
    cbn [dwell_stream flat_map]. fold (dwell_stream cycles).
    rewrite <- app_assoc.
    replace (fst c ++ snd c ++ dwell_stream cycles ++ inp)
      with ((fst c ++ snd c) ++ dwell_stream cycles ++ inp)
      by (now rewrite <- app_assoc).
    destruct (dwell_cycle_counts c (dwell_stream cycles ++ inp) Hc l g)
      as (l1 & g1 & Ho1 & _ & Hn1); [lia|].
    rewrite Ho1.
    destruct (IH l1 g1) as (l' & g' & Ho & Hng); [lia|lia|].
    exists l', g'. rewrite Ho. split; [reflexivity|].
    cbn [length]. rewrite Nat2Z.inj_succ. lia.
Qed.

End PhaseDetector.

(** X2. Sit-ups, push-ups and squats count positions, not samples.  Let
    the stream be made of at most ten repetitions, each one or more
    samples of the active phase followed by one or more samples of the
    reference phase.  Started with its counter at 0, the tracking function
    ends with the counter equal to the number of repetitions; it returns,
    with the flag set, exactly when there were ten. *)
Theorem X2_dwelling_counts_once (k : Kind) (g : Globals)
    (cycles : list (list Sample * list Sample)) :
  k <> JumpingJacks ->
  numOf k g = 0 ->
  (length cycles <= 10)%nat ->
  Forall (dwell_cycle k) cycles ->
  let r := track k g (dwell_stream cycles) in
  numOf k (globals_of r) = Z.of_nat (length cycles)
  /\ (returned r = true <-> length cycles = 10%nat)
  /\ (returned r = true -> finished k (globals_of r) = true).
Proof.
  intros Hk H0 Hlen Hall r.
  assert (Ho : outcome k r =
               (Z.of_nat (length cycles) =? 10, Z.of_nat (length cycles))).
  { subst r. rewrite outcome_track.
    destruct (dwell_cycles_count k Hk cycles [] Hall
                (initial (detector k)) g)
      as (l' & g' & Ho & Hn'); [lia|rewrite H0; unfold REPS; lia|].
    rewrite app_nil_r in Ho. rewrite Ho. rewrite H0 in Hn'. simpl in Hn'.
    destruct (Z.eqb_spec (Z.of_nat (length cycles)) 10) as [He|Hne].
    - rewrite outcome_exit by (unfold REPS; lia). now rewrite Hn'.
    - rewrite outcome_nil by (unfold REPS; lia). now rewrite Hn'. }
  assert (Hr : returned r = (Z.of_nat (length cycles) =? 10))
    by exact (f_equal fst Ho).
  assert (Hn : numOf k (globals_of r) = Z.of_nat (length cycles))
    by exact (f_equal snd Ho).
  split; [exact Hn|]. split.
  - rewrite Hr, Z.eqb_eq. lia.
  - intros Hret.
    apply (track_returned k g (dwell_stream cycles));
      [rewrite H0; unfold REPS; lia|exact Hret].
Qed.

Lemma X2_dwelling_counts_once_witness :
  let cycles := repeat ([sample 5 0 1; sample 5 0 1],
                        [sample 1 0 5; sample 1 0 5; sample 1 0 5]) 10 in
  numOf Pushups (globals_of (track Pushups power_on (dwell_stream cycles)))
  = Z.of_nat (length cycles)
  /\ returned (track Pushups power_on (dwell_stream cycles)) = true.
Proof.
  cbv zeta.
  assert (Hall : Forall (dwell_cycle Pushups)
                   (repeat ([sample 5 0 1; sample 5 0 1],
                            [sample 1 0 5; sample 1 0 5; sample 1 0 5]) 10)).
  { simpl. repeat (apply Forall_cons; [|]); try apply Forall_nil;
      (split; [discriminate|split; [discriminate|split; repeat constructor]]). }
  pose proof (X2_dwelling_counts_once Pushups power_on
                (repeat ([sample 5 0 1; sample 5 0 1],
                         [sample 1 0 5; sample 1 0 5; sample 1 0 5]) 10)
                ltac:(discriminate) eq_refl (le_n 10) Hall) as H.
  cbv zeta in H. destruct H as (H1 & H2 & _).
  split; [exact H1|]. apply H2. reflexivity.
Defined.

(** ** Jumping jacks: counting jumps *)

Lemma half_succ (t : Z) :
  0 <= t -> (t + 1) / 2 - t / 2 = if Z.rem (t + 1) 2 =? 0 then 1 else 0.
Proof.
  intros Ht. rewrite <- Zquot.Zeven_rem.
  destruct (Z.even (t + 1)) eqn:E.
  - apply Z.even_spec in E. destruct E as [m Hm].
    replace t with (2 * m - 1) in * by lia.
    replace (2 * m - 1 + 1) with (m * 2) by lia. rewrite Z.div_mul by lia.
    replace (2 * m - 1) with (1 + (m - 1) * 2) by lia.
    rewrite Z.div_add by lia. change (1 / 2) with 0. lia.
  - assert (Ho : Z.odd (t + 1) = true) by (rewrite <- Z.negb_even, E; reflexivity).
    apply Z.odd_spec in Ho. destruct Ho as [m Hm].
    replace t with (m * 2) by lia. rewrite Z.div_mul by lia.
    replace (m * 2 + 1) with (1 + m * 2) by lia.
    rewrite Z.div_add by lia. change (1 / 2) with 0. lia.
Qed.

Lemma jumps_cons s inp :
  jumps (s :: inp) = (if shows_active JumpingJacks s then 1 else 0) + jumps inp.
Proof.
  unfold jumps. cbn [filter].
  destruct (shows_active JumpingJacks s); cbn [length]; lia.
Qed.

Lemma jumps_nonneg inp : 0 <= jumps inp.
Proof. unfold jumps. lia. Qed.

(** The loop of [trackJumpJacks] from any reachable state of its two
    counters: the jump counter is at most one ahead of twice the number of
    jumping jacks. *)
Lemma jumping_jacks_count (inp : list Sample) :
  forall t g,
    1 <= t <= 2 * numOfJumpJacks g + 1 ->
    0 <= numOfJumpJacks g <= REPS ->
    numOfJumpJacks (globals_of (detector_loop JumpingJacks t g inp)) =
    Z.min REPS (numOfJumpJacks g + ((t + jumps inp) / 2 - t / 2)).
Proof.
  induction inp as [|s inp IH]; intros t g Ht Hn.
  - unfold jumps; simpl length. rewrite Z.add_0_r, Z.sub_diag, Z.add_0_r.
    assert (Hg : globals_of (detector_loop JumpingJacks t g []) = g).
    { unfold detector_loop. simpl. now destruct (numOfJumpJacks g <? REPS). }
    rewrite Hg. lia.
  - pose proof (jumps_nonneg inp) as Hj.
    assert (Hmono : t / 2 <= (t + jumps (s :: inp)) / 2).
    { apply Z.div_le_mono; [lia|]. pose proof (jumps_nonneg (s :: inp)). lia. }
    destruct (Z.eq_dec (numOfJumpJacks g) REPS) as [He|Hne].
    { rewrite detector_loop_exit by (simpl; lia). simpl globals_of. lia. }
    rewrite detector_loop_cons by (simpl; lia). rewrite globals_of_emit.
    rewrite jumps_cons. unfold feed, new_local, new_globals. cbn [fst snd].
    simpl body. unfold jumpJacks_body.
    change (accX (readMotion s g) <= F.of_int (-15))%flt
      with (shows_active JumpingJacks s).
    destruct (shows_active JumpingJacks s).
    + assert (Hi : incr t = t + 1) by (apply incr_small; unfold REPS in *; lia).
      rewrite Hi. pose proof (half_succ t ltac:(lia)) as Hh.
      destruct (Z.rem (t + 1) 2 =? 0) eqn:E; cbn [fst snd].
      * rewrite IH.
        -- simpl numOfJumpJacks.
           rewrite incr_small by (unfold REPS in *; lia).
           replace (t + 1 + jumps inp) with (t + (1 + jumps inp)) by lia. lia.
        -- simpl numOfJumpJacks.
           rewrite incr_small by (unfold REPS in *; lia). lia.
        -- simpl numOfJumpJacks.
           rewrite incr_small by (unfold REPS in *; lia). lia.
      * assert (Hev : t <= 2 * numOfJumpJacks g).
        { destruct (Z.eq_dec t (2 * numOfJumpJacks g + 1)) as [Heq|]; [|lia].
          exfalso. rewrite <- Zquot.Zeven_rem in E. subst t.
          replace (2 * numOfJumpJacks g + 1 + 1)
            with (2 * (numOfJumpJacks g + 1)) in E by lia.
          rewrite Z.even_mul in E. discriminate E. }
        rewrite IH.
        -- simpl numOfJumpJacks.
           replace (t + 1 + jumps inp) with (t + (1 + jumps inp)) by lia. lia.
        -- simpl numOfJumpJacks. lia.
        -- simpl numOfJumpJacks. lia.
    + cbn [fst snd]. rewrite IH.
      * simpl numOfJumpJacks. rewrite Z.add_0_l. reflexivity.
      * simpl numOfJumpJacks. lia.
      * simpl numOfJumpJacks. lia.
Qed.

(** X3. Jumping jacks count samples, not positions: every sample with
    x <= -15 is a jump, whatever lies between.  With the one jump that
    started the session, [j] such samples make [(j+1)/2] jumping jacks, up
    to ten: [trackJumpJacks], started with its counter at 0, ends with the
    counter at [min 10 ((j+1)/2)], and it returns, with the flag set,
    exactly when the stream holds 19 jumps or more. *)
Theorem X3_jumping_jacks_count (g : Globals) (inp : list Sample) :
  numOfJumpJacks g = 0 ->
  let r := trackJumpJacks g inp in
  numOfJumpJacks (globals_of r) = Z.min 10 ((jumps inp + 1) / 2)
  /\ (returned r = true <-> 19 <= jumps inp)
  /\ (returned r = true -> finishedJumpJacks (globals_of r) = true).
Proof.
  intros H0 r.
  assert (Hn : numOfJumpJacks (globals_of r) = Z.min 10 ((jumps inp + 1) / 2)).
  { subst r. change (numOfJumpJacks (globals_of (trackJumpJacks g inp)))
      with (numOf JumpingJacks (globals_of (track JumpingJacks g inp))).
    rewrite numOf_track. simpl initial. simpl numOf.
    rewrite jumping_jacks_count by (rewrite H0; unfold REPS; lia).
    rewrite H0. change (1 / 2) with 0. unfold REPS.
    replace (1 + jumps inp) with (jumps inp + 1) by lia. f_equal. lia. }
  pose proof (jumps_nonneg inp) as Hj.
  assert (Hret : returned r = true <-> numOfJumpJacks (globals_of r) = 10).
  { pose proof (outcome_track JumpingJacks g inp) as Ho.
    assert (Hr : returned r
                 = returned (detector_loop JumpingJacks 1 g inp))
      by exact (f_equal fst Ho).
    assert (Hc : numOfJumpJacks (globals_of r)
                 = numOfJumpJacks (globals_of (detector_loop JumpingJacks 1 g inp)))
      by exact (f_equal snd Ho).
    rewrite Hr, Hc.
    pose proof (detector_loop_bounds JumpingJacks inp 1 g
                  ltac:(simpl; rewrite H0; unfold REPS; lia)) as Hb.
    pose proof (sample_loop_returned (fun g => numOf JumpingJacks g <? REPS)
                  (body (detector JumpingJacks)) inp 1 g) as H1.
    pose proof (sample_loop_waiting (fun g => numOf JumpingJacks g <? REPS)
                  (body (detector JumpingJacks)) inp 1 g) as H2.
    fold (detector_loop JumpingJacks 1 g inp) in H1, H2.
    change (numOfJumpJacks (globals_of (detector_loop JumpingJacks 1 g inp)))
      with (numOf JumpingJacks (globals_of (detector_loop JumpingJacks 1 g inp))).
    generalize dependent (detector_loop JumpingJacks 1 g inp). intros L _ _ Hb H1 H2.
    unfold REPS in *. split.
    - intros H. specialize (H1 H). apply Z.ltb_ge in H1. lia.
    - intros H. destruct (returned L); [reflexivity|].
      specialize (H2 eq_refl). apply Z.ltb_lt in H2. lia. }
  split; [exact Hn|]. split.
  - rewrite Hret, Hn. split; intros H.
    + destruct (Z.lt_ge_cases (jumps inp) 19) as [Hlt|]; [|assumption].
      exfalso.
      assert ((jumps inp + 1) / 2 < 10)
        by (apply Z.div_lt_upper_bound; lia).
      lia.
    + assert (10 <= (jumps inp + 1) / 2)
        by (apply Z.div_le_lower_bound; lia).
      lia.
  - intros H.
    exact (proj2 (track_returned JumpingJacks g inp
                    ltac:(simpl; rewrite H0; unfold REPS; lia) H)).
Qed.

Lemma X3_jumping_jacks_count_witness :
  let inp := [sample (-20) 0 0; sample 0 0 0; sample (-15) 0 0;
              sample (-14) 0 0; sample (-30) 0 0] in
  numOfJumpJacks (globals_of (trackJumpJacks power_on inp))
  = Z.min 10 ((jumps inp + 1) / 2)
  /\ jumps inp = 3.
Proof.
  cbv zeta. split; [|reflexivity].
  exact (proj1 (X3_jumping_jacks_count power_on _ eq_refl)).
Defined.

(** ** Two samples in a row *)

(** An iteration counts only on the way from the active phase to the
    reference phase. *)
Lemma feed_count_cases (k : Kind) (l : local (detector k)) (g : Globals)
    (s : Sample) :
  numOf k (snd (feed k s (l, g))) = numOf k g
  \/ (active (detector k) l = true
      /\ active (detector k) (fst (feed k s (l, g))) = false
      /\ numOf k (snd (feed k s (l, g))) = incr (numOf k g)).
Proof.
  unfold feed, new_local, new_globals. cbn [fst snd].
  destruct k; simpl in l |- *.
  - unfold jumpJacks_body. pose proof (rem2_incr l) as Hp.
    destruct (accX (readMotion s g) <= F.of_int (-15))%flt; [|now left].
    destruct (Z.rem (incr l) 2 =? 0) eqn:E1; cbn [fst snd]; [|now left].
    right. rewrite ?E1.
    destruct (Z.rem l 2 =? 0); [discriminate Hp|]. auto.
  - unfold squats_body.
    destruct l, (accZ (readMotion s g) > accY (readMotion s g))%flt,
      (accZ (readMotion s g) < accY (readMotion s g))%flt; simpl; auto.
  - unfold sitUps_body.
    destruct l, (accX (readMotion s g) > accY (readMotion s g))%flt,
      (accX (readMotion s g) < accY (readMotion s g))%flt; simpl; auto.
  - unfold pushUps_body.
    destruct l, (accZ (readMotion s g) > accX (readMotion s g))%flt,
      (accZ (readMotion s g) < accX (readMotion s g))%flt; simpl; auto.
Qed.

(** X4. No detector counts two samples in a row: whatever two samples
    follow each other, the counter goes up by at most 1 over the two
    iterations, and if the first one counted the second one does not. *)
Theorem X4_no_two_counts_in_a_row (k : Kind) (l : local (detector k))
    (g : Globals) (s1 s2 : Sample) :
  0 <= numOf k g < REPS ->
  let st1 := feed k s1 (l, g) in
  let st2 := feed k s2 st1 in
  numOf k g <= numOf k (snd st2) <= numOf k g + 1
  /\ (numOf k (snd st1) = numOf k g + 1 -> numOf k (snd st2) = numOf k (snd st1)).
Proof.
  intros Hn st1 st2.
  assert (Hi : incr (numOf k g) = numOf k g + 1)
    by (apply incr_small; unfold REPS in Hn; lia).
  destruct (feed_count_cases k l g s1) as [H1|(Ha & Hb & H1)];
    fold st1 in H1 |- *.
  - destruct (feed_count_cases k (fst st1) (snd st1) s2) as [H2|(_ & _ & H2)];
      rewrite <- (surjective_pairing st1) in H2; fold st2 in H2.
    + split; [lia|]. intros; lia.
    + rewrite H1, Hi in H2. split; [lia|]. intros; lia.
  - fold st1 in Hb.
    destruct (feed_count_cases k (fst st1) (snd st1) s2) as [H2|(Hc & _ & _)].
    + rewrite <- (surjective_pairing st1) in H2. fold st2 in H2.
      split; [lia|]. intros; lia.
    + congruence.
Qed.

Lemma X4_no_two_counts_in_a_row_witness :
  0 <= numOf Squats power_on < REPS
  /\ numOf Squats
       (snd (feed Squats (sample 0 1 5)
               (feed Squats (sample 0 1 5) (true, power_on))))
     <= numOf Squats power_on + 1.
Proof.
  assert (H : 0 <= numOf Squats power_on < REPS)
    by (split; [discriminate|reflexivity]).
  split; [exact H|].
  exact (proj2 (proj1 (X4_no_two_counts_in_a_row Squats true power_on
                         (sample 0 1 5) (sample 0 1 5) H))).
Defined.

(** ** Pixels and counters *)

Lemma pixel_events_app out1 out2 :
  pixel_events (out1 ++ out2) = pixel_events out1 ++ pixel_events out2.
Proof. apply filter_app. Qed.

Lemma pixels_from_succ n m c :
  pixels_from n (S m) c = SetPixelColor n c :: pixels_from (n + 1) m c.
Proof.
  unfold pixels_from. cbn [seq map]. rewrite Z.add_0_r. f_equal.
  rewrite <- seq_shift, map_map. apply map_ext. intros i. f_equal. lia.
Qed.

(** X5. The pixels lit by the loop of a tracking function are the
    repetitions it counted: from a counter at [n] to a counter at [n'], the
    [setPixelColor] calls of the loop are exactly those of the pixels
    [n], ..., [n'-1], in this order, each once and in the colour of the
    exercise. *)
Theorem X5_one_pixel_per_repetition (k : Kind) (inp : list Sample) :
  forall (l : local (detector k)) (g : Globals),
  0 <= numOf k g <= REPS ->
  let r := detector_loop k l g inp in
  pixel_events (trace_of r) =
  pixels_from (numOf k g)
              (Z.to_nat (numOf k (globals_of r) - numOf k g)) (colour k).
Proof.
  induction inp as [|s inp IH]; intros l g Hn; cbv zeta.
  - assert (Hr : trace_of (detector_loop k l g []) = []
                 /\ globals_of (detector_loop k l g []) = g).
    { unfold detector_loop. simpl. now destruct (numOf k g <? REPS). }
    destruct Hr as [-> ->]. now rewrite Z.sub_diag.
  - destruct (Z.eq_dec (numOf k g) REPS) as [He|Hne].
    { rewrite detector_loop_exit by lia. simpl. now rewrite Z.sub_diag. }
    rewrite detector_loop_cons by lia.
    rewrite trace_of_emit, globals_of_emit.
    pose proof (feed_counts k s l g ltac:(lia)) as Hc.
    pose proof (detector_loop_bounds k inp (fst (feed k s (l, g)))
                  (snd (feed k s (l, g)))) as Hb.
    specialize (IH (fst (feed k s (l, g))) (snd (feed k s (l, g)))).
    cbv zeta in IH.
    change (Motion s :: events (body (detector k) l (readMotion s g)))
      with ([Motion s] ++ events (body (detector k) l (readMotion s g))).
    rewrite <- app_assoc, !pixel_events_app.
    rewrite body_events, pixel_events_app. rewrite numOf_readMotion.
    change (new_local (body (detector k) l (readMotion s g)))
      with (fst (feed k s (l, g))).
    destruct (back_to_reference k l (fst (feed k s (l, g)))).
    + rewrite IH by lia. specialize (Hb ltac:(lia)).
      replace (Z.to_nat (numOf k (globals_of (detector_loop k
                 (fst (feed k s (l, g))) (snd (feed k s (l, g))) inp))
               - numOf k g))
        with (S (Z.to_nat (numOf k (globals_of (detector_loop k
                 (fst (feed k s (l, g))) (snd (feed k s (l, g))) inp))
               - numOf k (snd (feed k s (l, g)))))) by lia.
      rewrite pixels_from_succ, Hc. reflexivity.
    + rewrite IH by lia. rewrite Hc, Z.add_0_r. reflexivity.
Qed.

Lemma X5_one_pixel_per_repetition_witness :
  0 <= numOf Situps power_on <= REPS
  /\ pixel_events
       (trace_of (detector_loop Situps false power_on
                    [sample 1 5 0; sample 5 1 0; sample 1 5 0; sample 5 1 0]))
     = [SetPixelColor 0 PURPLE; SetPixelColor 1 PURPLE].
Proof.
  assert (H : 0 <= numOf Situps power_on <= REPS)
    by (split; discriminate).
  split; [exact H|].
  exact (X5_one_pixel_per_repetition Situps
           [sample 1 5 0; sample 5 1 0; sample 1 5 0; sample 5 1 0]
           false power_on H).
Defined.

(** ** Bounds *)

Ltac each_in_range :=
  repeat (apply Forall_cons;
          [let H := fresh in intros ? ? H; inversion H; subst; lia|]);
  try apply Forall_nil.

Lemma sample_loop_inv_trace {L : Type} (cond : Globals -> bool)
    (body : L -> Globals -> L * Globals * list Event)
    (I : Globals -> Prop) (Q : Event -> Prop) :
  (forall s, Q (Motion s)) ->
  (forall l g s, cond g = true -> I g ->
                 I (new_globals (body l (readMotion s g)))
                 /\ Forall Q (events (body l (readMotion s g)))) ->
  forall inp l g, I g ->
    I (globals_of (sample_loop cond body l g inp))
    /\ Forall Q (trace_of (sample_loop cond body l g inp)).
Proof.
  intros Hm Hstep inp. induction inp as [|s inp IH]; intros l g Hg.
  - simpl. destruct (cond g); split; simpl; auto.
  - destruct (cond g) eqn:Hc.
    + rewrite sample_loop_cons by assumption.
      rewrite globals_of_emit, trace_of_emit.
      destruct (Hstep l g s Hc Hg) as [Hi Hq].
      destruct (IH (new_local (body l (readMotion s g)))
                  (new_globals (body l (readMotion s g))) Hi) as [Hi' Hq'].
      split; [assumption|].
      simpl. constructor; [apply Hm|]. apply Forall_app. now split.
    + rewrite sample_loop_exit by assumption. split; simpl; auto.
Qed.

Lemma pixel_in_range_other e : is_pixel e = false -> pixel_in_range e.
Proof. intros H p c ->. discriminate H. Qed.

Lemma in_range_setAllLeds c : Forall pixel_in_range (setAllLeds c).
Proof.
  unfold setAllLeds. simpl.
  each_in_range.
Qed.

Lemma in_range_blink c : Forall pixel_in_range (blinkAnimLed c).
Proof.
  unfold blinkAnimLed, setAllLeds. simpl.
  each_in_range.
Qed.

Lemma in_range_victorySong : Forall pixel_in_range victorySong.
Proof. each_in_range. Qed.

Lemma in_range_showMainMenu g : Forall pixel_in_range (showMainMenu g).
Proof.
  unfold showMainMenu.
  destruct (finishedJumpJacks g), (finishedSquats g), (finishedSitUps g),
    (finishedPushUps g); simpl;
    each_in_range.
Qed.

Lemma in_bounds_emit pre r :
  Forall pixel_in_range pre -> in_bounds r -> in_bounds (emit pre r).
Proof.
  intros Hp [Hc Ht]. unfold in_bounds.
  rewrite globals_of_emit, trace_of_emit. split; [assumption|].
  apply Forall_app. now split.
Qed.

Lemma in_bounds_andThen r cont :
  in_bounds r ->
  (forall g rest, counters_bounded g -> in_bounds (cont g rest)) ->
  in_bounds (andThen r cont).
Proof.
  intros [Hc Ht] Hk. destruct r as [g rest out|g out]; simpl in *.
  - apply in_bounds_emit; [assumption|]. now apply Hk.
  - now split.
Qed.

Lemma counters_bounded_readMotion s g :
  counters_bounded g -> counters_bounded (readMotion s g).
Proof. intros H k. rewrite numOf_readMotion. apply H. Qed.

Lemma in_bounds_track k g inp : counters_bounded g -> in_bounds (track k g inp).
Proof.
  intros Hg. rewrite track_unfold.
  apply in_bounds_emit.
  { apply Forall_app. split; [apply in_range_blink|].
    each_in_range. }
  apply in_bounds_andThen.
  - unfold in_bounds, detector_loop.
    apply (sample_loop_inv_trace _ _ counters_bounded pixel_in_range).
    + intros s p c H. discriminate H.
    + intros l0 g0 s Hc H0. split.
      * intros k'. destruct (Kind_eq_dec k' k) as [->|Hne].
        -- exact (proj1 (detector_loop_step k l0 g0 s Hc (H0 k))).
        -- destruct (body_globals k l0 (readMotion s g0)) as (_ & Hn & _).
           rewrite (Hn k' Hne), numOf_readMotion. apply H0.
      * rewrite body_events. apply Forall_app. split.
        -- destruct (back_to_reference k l0 _); [|constructor].
           unfold rep_event. rewrite numOf_readMotion.
           apply Z.ltb_lt in Hc. pose proof (H0 k) as Hk0.
           unfold REPS in *. each_in_range.
        -- each_in_range.
    + assumption.
  - intros g' rest Hg'. split; simpl.
    + intros k'. rewrite numOf_set_finished. apply Hg'.
    + unfold routine_complete. apply Forall_app. split.
      * apply in_range_setAllLeds.
      * apply in_range_victorySong.
Qed.

Lemma in_bounds_reloadMainMenu g rest :
  counters_bounded g -> in_bounds (reloadMainMenu g rest).
Proof.
  intros Hg. split; [exact Hg|]. simpl.
  apply Forall_cons; [intros p c H; discriminate H|].
  apply in_range_showMainMenu.
Qed.

Lemma in_bounds_standing_loop inp : forall g,
  counters_bounded g -> in_bounds (standing_loop g inp).
Proof.
  induction inp as [|s inp IH]; intros g Hg.
  - split; [exact Hg|constructor].
  - cbn [standing_loop].
    apply in_bounds_emit; [each_in_range|].
    apply (counters_bounded_readMotion s) in Hg.
    generalize dependent (readMotion s g). clear g. intros g1 Hg.
    destruct (negb (finishedJumpJacks g1) && (accX g1 <= F.of_int (-15))%flt).
    { apply in_bounds_andThen;
        [exact (in_bounds_track JumpingJacks g1 inp Hg)|].
      intros; now apply in_bounds_reloadMainMenu. }
    destruct (negb (finishedSquats g1) && (accZ g1 < accY g1)%flt).
    { apply in_bounds_andThen; [exact (in_bounds_track Squats g1 inp Hg)|].
      intros; now apply in_bounds_reloadMainMenu. }
    now apply IH.
Qed.

Lemma in_bounds_beginTracking g inp :
  counters_bounded g -> in_bounds (beginTracking g inp).
Proof.
  intros Hg. destruct inp as [|s inp].
  - split; [exact Hg|constructor].
  - cbn [beginTracking].
    apply in_bounds_emit; [each_in_range|].
    apply (counters_bounded_readMotion s) in Hg.
    generalize dependent (readMotion s g). clear g. intros g1 Hg.
    apply in_bounds_andThen.
    2:{ intros; now apply in_bounds_reloadMainMenu. }
    destruct ((accX g1 < accY g1)%flt && (accY g1 < accZ g1)%flt).
    { now apply in_bounds_standing_loop. }
    destruct (negb (finishedPushUps g1) && (accY g1 > accZ g1)%flt
              && (accZ g1 > accX g1)%flt).
    { exact (in_bounds_track Pushups g1 inp Hg). }
    destruct (negb (finishedSitUps g1) && (accZ g1 > accX g1)%flt
              && (accX g1 > accY g1)%flt).
    { exact (in_bounds_track Situps g1 inp Hg). }
    split; [exact Hg|constructor].
Qed.

Lemma in_bounds_loop b g inp : counters_bounded g -> in_bounds (loop b g inp).
Proof.
  intros Hg. unfold loop. destruct (leftButton b || rightButton b).
  - apply in_bounds_emit.
    + apply Forall_app. split; [apply in_range_setAllLeds|].
      each_in_range.
    + apply in_bounds_andThen; [now apply in_bounds_beginTracking|].
      intros g' rest Hg'. split; [exact Hg'|].
      each_in_range.
  - split; [exact Hg|]. each_in_range.
Qed.

Lemma in_bounds_loops bs : forall g inp,
  counters_bounded g -> in_bounds (loops bs g inp).
Proof.
  induction bs as [|b bs IH]; intros g inp Hg.
  - split; [exact Hg|constructor].
  - cbn [loops]. apply in_bounds_andThen; [now apply in_bounds_loop|].
    intros g' rest Hg'. now apply IH.
Qed.

(** X6. From power-on, at every point of every run -- back at the main
    menu or in the middle of a session -- each counter is between 0 and 10,
    and every [setPixelColor] call made so far addressed one of the pixels
    0 to 9: a counter is used as a pixel index only while it is below 10. *)
Theorem X6_counters_and_pixels_in_bounds (bs : list Buttons)
    (inp : list Sample) :
  (forall k, 0 <= numOf k (globals_of (sketch bs inp)) <= 10)
  /\ (forall p c, In (SetPixelColor p c) (trace_of (sketch bs inp)) ->
                  0 <= p <= 9).
Proof.
  assert (H : in_bounds (sketch bs inp)).
  { unfold sketch. cbn [setup]. apply in_bounds_emit.
    - apply Forall_app. split.
      + each_in_range.
      + apply in_range_showMainMenu.
    - apply in_bounds_loops. intros k. destruct k; simpl; unfold REPS; lia. }
  destruct H as [Hc Ht]. split.
  - exact Hc.
  - intros p c Hin. rewrite Forall_forall in Ht. exact (Ht _ Hin p c eq_refl).
Qed.

(** ** What the pixels show at the main menu *)

Lemma shows_menu_of_delay g out ms :
  shows_menu_of g out -> shows_menu_of g (out ++ [Delay ms]).
Proof.
  intros (pre & dl & -> & Hdl). exists pre, (dl ++ [Delay ms]). split.
  - now rewrite <- !app_assoc.
  - rewrite forallb_app, Hdl. reflexivity.
Qed.

(** A call of [beginTracking] that returns has just reloaded the main
    menu for the globals it returns. *)
Lemma beginTracking_reloads g inp :
  returned (beginTracking g inp) = true ->
  exists pre,
    trace_of (beginTracking g inp) =
    pre ++ Delay (DEBOUNCE * 5) :: showMainMenu (globals_of (beginTracking g inp)).
Proof.
  destruct inp as [|s inp]; [discriminate|].
  cbn [beginTracking]. rewrite returned_emit, trace_of_emit, globals_of_emit.
  match goal with |- context [andThen ?x reloadMainMenu] =>
    destruct x as [g' rest out|g' out] end; [|discriminate].
  intros _. simpl. exists ([Motion s] ++ out). now rewrite <- app_assoc.
Qed.

Lemma loop_shows_menu b g inp pre0 :
  shows_menu_of g pre0 ->
  returned (loop b g inp) = true ->
  shows_menu_of (globals_of (loop b g inp)) (pre0 ++ trace_of (loop b g inp)).
Proof.
  intros Hm. unfold loop. destruct (leftButton b || rightButton b).
  - rewrite returned_emit, trace_of_emit, globals_of_emit.
    pose proof (beginTracking_reloads g inp) as Hb.
    destruct (beginTracking g inp) as [g' rest out|g' out]; [|discriminate].
    intros _. destruct (Hb eq_refl) as [pre Hpre]. simpl in Hpre |- *.
    rewrite Hpre.
    exists (pre0 ++ (setAllLeds WHITE ++ [PlayTone 440 100])
            ++ pre ++ [Delay (DEBOUNCE * 5)]), [Delay DEBOUNCE].
    split; [|reflexivity].
    rewrite <- !app_assoc. reflexivity.
  - intros _. now apply shows_menu_of_delay.
Qed.

Lemma loops_show_menu bs : forall g inp pre0,
  shows_menu_of g pre0 ->
  returned (loops bs g inp) = true ->
  shows_menu_of (globals_of (loops bs g inp))
                (pre0 ++ trace_of (loops bs g inp)).
Proof.
  induction bs as [|b bs IH]; intros g inp pre0 Hm.
  - intros _. simpl. now rewrite app_nil_r.
  - cbn [loops]. pose proof (loop_shows_menu b g inp pre0 Hm) as Hl.
    destruct (loop b g inp) as [g1 rest1 out1|g1 out1]; [|discriminate].
    specialize (Hl eq_refl). simpl in Hl. cbn [andThen].
    rewrite returned_emit, trace_of_emit, globals_of_emit. intros Hr.
    rewrite app_assoc. now apply IH.
Qed.

(** X7. Whenever the sketch is back at the main menu, the pixels show the
    main menu of the flags as they are now: the last thing drawn is
    [showMainMenu] for the current globals, and only delays have followed
    it. *)
Theorem X7_main_menu_is_current (bs : list Buttons) (inp : list Sample) :
  returned (sketch bs inp) = true ->
  shows_menu_of (globals_of (sketch bs inp)) (trace_of (sketch bs inp)).
Proof.
  unfold sketch. cbn [setup].
  rewrite returned_emit, trace_of_emit, globals_of_emit.
  apply loops_show_menu.
  exists [Begin; SetBrightness 4], []. split; [|reflexivity].
  now rewrite app_nil_r.
Qed.

Lemma X7_main_menu_is_current_witness :
  shows_menu_of
    (globals_of (sketch [pressed; mkButtons false false]
                   (situps_routine ++ [sample 4 4 4])))
    (trace_of (sketch [pressed; mkButtons false false]
                 (situps_routine ++ [sample 4 4 4]))).
Proof.
  apply X7_main_menu_is_current. vm_compute. reflexivity.
Defined.

(** ** One exercise per button press *)

Lemma standing_loop_one_kind inp : forall g,
  exists k, forall k', k' <> k ->
    numOf k' (globals_of (standing_loop g inp)) = numOf k' g
    /\ finished k' (globals_of (standing_loop g inp)) = finished k' g.
Proof.
  induction inp as [|s inp IH]; intros g.
  - exists JumpingJacks. intros; now split.
  - cbn [standing_loop]. rewrite globals_of_emit.
    assert (Hrd : forall k', numOf k' (readMotion s g) = numOf k' g
                             /\ finished k' (readMotion s g) = finished k' g)
      by (intros; now rewrite numOf_readMotion, finished_readMotion).
    generalize dependent (readMotion s g). intros g1 Hrd.
    destruct (negb (finishedJumpJacks g1) && (accX g1 <= F.of_int (-15))%flt).
    { exists JumpingJacks. intros k' Hk. rewrite globals_of_reloadMainMenu.
      destruct (track_frame JumpingJacks g1 inp) as (Hf & _ & Hn).
      change (trackJumpJacks g1 inp) with (track JumpingJacks g1 inp).
      rewrite (Hn k' Hk), (Hf k' Hk). apply Hrd. }
    destruct (negb (finishedSquats g1) && (accZ g1 < accY g1)%flt).
    { exists Squats. intros k' Hk. rewrite globals_of_reloadMainMenu.
      destruct (track_frame Squats g1 inp) as (Hf & _ & Hn).
      change (trackSquats g1 inp) with (track Squats g1 inp).
      rewrite (Hn k' Hk), (Hf k' Hk). apply Hrd. }
    destruct (IH g1) as [k Hk]. exists k. intros k' Hne.
    destruct (Hk k' Hne) as [H1 H2]. destruct (Hrd k') as [H3 H4].
    split; congruence.
Qed.

(** X8. One call of [loop()] tracks at most one exercise: whatever the
    buttons and the samples, returned or not, there is an exercise such
    that the counters and flags of the other three are as they were. *)
Theorem X8_one_exercise_per_call (b : Buttons) (g : Globals)
    (inp : list Sample) :
  exists k, forall k', k' <> k ->
    numOf k' (globals_of (loop b g inp)) = numOf k' g
    /\ finished k' (globals_of (loop b g inp)) = finished k' g.
Proof.
  assert (Hb : exists k, forall k', k' <> k ->
    numOf k' (globals_of (beginTracking g inp)) = numOf k' g
    /\ finished k' (globals_of (beginTracking g inp)) = finished k' g).
  { destruct inp as [|s inp]; [exists JumpingJacks; intros; now split|].
    cbn [beginTracking]. rewrite globals_of_emit, globals_of_reloadMainMenu.
    assert (Hrd : forall k', numOf k' (readMotion s g) = numOf k' g
                             /\ finished k' (readMotion s g) = finished k' g)
      by (intros; now rewrite numOf_readMotion, finished_readMotion).
    generalize dependent (readMotion s g). intros g1 Hrd.
    destruct ((accX g1 < accY g1)%flt && (accY g1 < accZ g1)%flt).
    { destruct (standing_loop_one_kind inp g1) as [k Hk]. exists k.
      intros k' Hne. destruct (Hk k' Hne) as [H1 H2].
      destruct (Hrd k') as [H3 H4]. split; congruence. }
    destruct (negb (finishedPushUps g1) && (accY g1 > accZ g1)%flt
              && (accZ g1 > accX g1)%flt).
    { exists Pushups. intros k' Hk.
      destruct (track_frame Pushups g1 inp) as (Hf & _ & Hn).
      change (trackPushUps g1 inp) with (track Pushups g1 inp).
      rewrite (Hn k' Hk), (Hf k' Hk). apply Hrd. }
    destruct (negb (finishedSitUps g1) && (accZ g1 > accX g1)%flt
              && (accX g1 > accY g1)%flt).
    { exists Situps. intros k' Hk.
      destruct (track_frame Situps g1 inp) as (Hf & _ & Hn).
      change (trackSitUps g1 inp) with (track Situps g1 inp).
      rewrite (Hn k' Hk), (Hf k' Hk). apply Hrd. }
    exists JumpingJacks. intros k' _. apply Hrd. }
  unfold loop. destruct (leftButton b || rightButton b).
  - rewrite globals_of_emit. destruct Hb as [k Hk]. exists k.
    destruct (beginTracking g inp); exact Hk.
  - exists JumpingJacks. intros; now split.
Qed.

(** ** The standing loop *)

Lemma starts_readMotion g s s' :
  starts_jumps (readMotion s' g) s = starts_jumps g s
  /\ starts_squats (readMotion s' g) s = starts_squats g s.
Proof. split; reflexivity. Qed.

Lemma read_all_app pre post g :
  read_all (pre ++ post) g = read_all post (read_all pre g).
Proof. unfold read_all. apply fold_left_app. Qed.

(** X9. The standing loop binds the session to the first sample that
    passes one of its two tests, and reads on until then.  If the samples
    of [pre] pass neither test and [s] is a jump while jumping jacks are
    not finished, jumping jacks are tracked on what follows [s], even when
    [s] also shows a squat going down; if [s] passes the squat test only,
    squats are tracked. *)
Theorem X9_standing_loop_first_trigger (g : Globals) (pre : list Sample)
    (s : Sample) (rest : list Sample) :
  Forall (fun s0 => starts_jumps g s0 = false /\ starts_squats g s0 = false)
         pre ->
  (starts_jumps g s = true ->
   standing_loop g (pre ++ s :: rest) =
   emit (flat_map (fun s0 => [Motion s0; Delay DEBOUNCE]) (pre ++ [s]))
     (andThen (trackJumpJacks (read_all (pre ++ [s]) g) rest) reloadMainMenu))
  /\ (starts_jumps g s = false -> starts_squats g s = true ->
      standing_loop g (pre ++ s :: rest) =
      emit (flat_map (fun s0 => [Motion s0; Delay DEBOUNCE]) (pre ++ [s]))
        (andThen (trackSquats (read_all (pre ++ [s]) g) rest) reloadMainMenu)).
Proof.
  revert g. induction pre as [|s0 pre IH]; intros g Hpre.
  - cbn [app flat_map read_all fold_left standing_loop].
    unfold starts_jumps, starts_squats.
    change (accX (readMotion s g)) with (sx s).
    change (accY (readMotion s g)) with (sy s).
    change (accZ (readMotion s g)) with (sz s).
    change (finishedJumpJacks (readMotion s g)) with (finishedJumpJacks g).
    change (finishedSquats (readMotion s g)) with (finishedSquats g).
    split.
    + intros ->. reflexivity.
    + intros -> ->. reflexivity.
  - inversion Hpre as [|s0' pre' [Hj Hs] Hpre']; subst s0' pre'.
    assert (Hpre1 : Forall (fun s1 => starts_jumps (readMotion s0 g) s1 = false
                                       /\ starts_squats (readMotion s0 g) s1 = false)
                           pre) by exact Hpre'.
    destruct (IH (readMotion s0 g) Hpre1) as [IHj IHs].
    cbn [app standing_loop].
    unfold starts_jumps, starts_squats in Hj, Hs.
    change (accX (readMotion s0 g)) with (sx s0).
    change (accY (readMotion s0 g)) with (sy s0).
    change (accZ (readMotion s0 g)) with (sz s0).
    change (finishedJumpJacks (readMotion s0 g)) with (finishedJumpJacks g).
    change (finishedSquats (readMotion s0 g)) with (finishedSquats g).
    rewrite Hj, Hs.
    split.
    + intros H. rewrite (IHj H), emit_emit. reflexivity.
    + intros H1 H2. rewrite (IHs H1 H2), emit_emit. reflexivity.
Qed.

Lemma X9_standing_loop_first_trigger_witness :
  standing_loop power_on ([sample 0 2 3] ++ sample (-20) 3 2 :: [sample 0 0 0])
  = emit (flat_map (fun s0 => [Motion s0; Delay DEBOUNCE])
            ([sample 0 2 3] ++ [sample (-20) 3 2]))
      (andThen (trackJumpJacks
                  (read_all ([sample 0 2 3] ++ [sample (-20) 3 2]) power_on)
                  [sample 0 0 0])
               reloadMainMenu)
  /\ starts_squats power_on (sample (-20) 3 2) = true.
Proof.
  split; [|reflexivity].
  apply (proj1 (X9_standing_loop_first_trigger power_on [sample 0 2 3]
                  (sample (-20) 3 2) [sample 0 0 0]
                  ltac:(repeat constructor))).
  reflexivity.
Defined.

(** The only way out of the standing loop is a completed routine. *)
Lemma standing_loop_returned inp : forall g,
  counters_bounded g ->
  returned (standing_loop g inp) = true ->
  exists k, (k = JumpingJacks \/ k = Squats)
            /\ finished k g = false
            /\ finished k (globals_of (standing_loop g inp)) = true
            /\ numOf k (globals_of (standing_loop g inp)) = REPS
            /\ exists pre,
                 trace_of (standing_loop g inp) =
                 pre ++ routine_complete k
                 ++ Delay (DEBOUNCE * 5)
                 :: showMainMenu (globals_of (standing_loop g inp)).
Proof.
  induction inp as [|s inp IH]; intros g Hg; [discriminate|].
  cbn [standing_loop]. rewrite returned_emit, globals_of_emit, trace_of_emit.
  apply (counters_bounded_readMotion s) in Hg.
  assert (Hfin : forall k, finished k (readMotion s g) = finished k g)
    by (intros; apply finished_readMotion).
  generalize dependent (readMotion s g). intros g1 Hg Hfin.
  assert (Htrack : forall k, finished k g1 = false ->
            returned (andThen (track k g1 inp) reloadMainMenu) = true ->
            finished k (globals_of (andThen (track k g1 inp) reloadMainMenu)) = true
            /\ numOf k (globals_of (andThen (track k g1 inp) reloadMainMenu)) = REPS
            /\ exists pre,
                 trace_of (andThen (track k g1 inp) reloadMainMenu) =
                 pre ++ routine_complete k
                 ++ Delay (DEBOUNCE * 5)
                 :: showMainMenu
                      (globals_of (andThen (track k g1 inp) reloadMainMenu))).
  { intros k Hf Hr. rewrite globals_of_reloadMainMenu.
    assert (Hr' : returned (track k g1 inp) = true)
      by (destruct (track k g1 inp); [reflexivity|discriminate Hr]).
    destruct (track_returned k g1 inp (Hg k) Hr') as [Hn' Hf'].
    split; [exact Hf'|]. split; [exact Hn'|].
    rewrite track_unfold in *.
    destruct (detector_loop k (initial (detector k)) g1 inp)
      as [g2 rest out|g2 out]; [|discriminate Hr'].
    simpl. exists ((blinkAnimLed (colour k) ++ [ClearPixels]) ++ out).
    rewrite <- !app_assoc. reflexivity. }
  destruct (negb (finishedJumpJacks g1) && (accX g1 <= F.of_int (-15))%flt)
    eqn:Ej.
  { apply andb_prop in Ej. destruct Ej as [Ej _]. apply negb_true_iff in Ej.
    intros Hr. destruct (Htrack JumpingJacks Ej Hr) as (H1 & H2 & pre & H3).
    exists JumpingJacks. rewrite <- Hfin.
    repeat split; try assumption; [now left|].
    exists ([Motion s; Delay DEBOUNCE] ++ pre).
    change (trackJumpJacks g1 inp) with (track JumpingJacks g1 inp).
    rewrite H3, <- app_assoc. reflexivity. }
  destruct (negb (finishedSquats g1) && (accZ g1 < accY g1)%flt) eqn:Es.
  { apply andb_prop in Es. destruct Es as [Es _]. apply negb_true_iff in Es.
    intros Hr. destruct (Htrack Squats Es Hr) as (H1 & H2 & pre & H3).
    exists Squats. rewrite <- Hfin.
    repeat split; try assumption; [now right|].
    exists ([Motion s; Delay DEBOUNCE] ++ pre).
    change (trackSquats g1 inp) with (track Squats g1 inp).
    rewrite H3, <- app_assoc. reflexivity. }
  intros Hr. destruct (IH g1 Hg Hr) as (k & Hk & H0 & H1 & H2 & pre & H3).
  exists k. rewrite <- Hfin. repeat split; try assumption.
  exists ([Motion s; Delay DEBOUNCE] ++ pre). rewrite H3, <- app_assoc.
  reflexivity.
Qed.

(** X10. A button press while standing (x<y<z) comes back to the main
    menu only through a completed routine of jumping jacks or squats: if
    [beginTracking] returns, that exercise was not finished before, is
    finished now with its counter at 10, and the trace ends with its
    routine-complete event followed by the pause and the main menu, twice
    over -- once before the [break], once at the end of the function. *)
Theorem X10_standing_press_returns_after_routine (g : Globals) (s : Sample)
    (inp : list Sample) :
  counters_bounded g ->
  (sx s < sy s)%flt = true -> (sy s < sz s)%flt = true ->
  returned (beginTracking g (s :: inp)) = true ->
  let g' := globals_of (beginTracking g (s :: inp)) in
  exists k, (k = JumpingJacks \/ k = Squats)
            /\ finished k g = false /\ finished k g' = true
            /\ numOf k g' = 10
            /\ exists pre,
                 trace_of (beginTracking g (s :: inp)) =
                 pre ++ routine_complete k
                 ++ (Delay (DEBOUNCE * 5) :: showMainMenu g')
                 ++ (Delay (DEBOUNCE * 5) :: showMainMenu g').
Proof.
  intros Hg Hxy Hyz. cbn [beginTracking].
  change (accX (readMotion s g)) with (sx s).
  change (accY (readMotion s g)) with (sy s).
  change (accZ (readMotion s g)) with (sz s).
  rewrite Hxy, Hyz. cbn [andb].
  rewrite returned_emit, globals_of_emit, trace_of_emit,
    globals_of_reloadMainMenu.
  pose proof (standing_loop_returned inp (readMotion s g)
                (counters_bounded_readMotion s g Hg)) as Hs.
  destruct (standing_loop (readMotion s g) inp) as [g1 rest out|g1 out];
    [|discriminate].
  intros _. destruct (Hs eq_refl) as (k & Hk & H0 & H1 & H2 & pre & H3).
  cbn [globals_of trace_of] in H1, H2, H3.
  cbn [andThen reloadMainMenu emit globals_of trace_of]. exists k.
  rewrite finished_readMotion in H0.
  repeat split; try assumption.
  exists (Motion s :: pre). rewrite H3.
  cbn [app]. f_equal. rewrite <- !app_assoc. cbn [app]. reflexivity.
Qed.

Lemma X10_standing_press_returns_after_routine_witness :
  returned (beginTracking power_on squats_routine) = true
  /\ exists k, (k = JumpingJacks \/ k = Squats)
               /\ finished k (globals_of (beginTracking power_on squats_routine))
                  = true.
Proof.
  assert (Hr : returned (beginTracking power_on squats_routine) = true)
    by (vm_compute; reflexivity).
  split; [exact Hr|].
  destruct (X10_standing_press_returns_after_routine power_on (sample 1 2 3)
              (tl squats_routine)
              ltac:(intros k; destruct k; simpl; unfold REPS; lia)
              eq_refl eq_refl Hr) as (k & Hk & _ & H1 & _).
  exists k. split; [exact Hk|exact H1].
Defined.

(** ** Samples that are no posture *)

Lemma nan_not_lt (a b : F.float) :
  is_nan a = true -> (a < b)%flt = false /\ (b < a)%flt = false.
Proof.
  destruct a; try discriminate. intros _.
  unfold F.lt, SFltb. split; [reflexivity|]. now destruct b.
Qed.

Lemma nan_not_le (a b : F.float) : is_nan a = true -> (a <= b)%flt = false.
Proof. destruct a; try discriminate. reflexivity. Qed.

(** X11. A sample whose three coordinates are not three distinct numbers
    -- one of them is a NaN, or two of them compare equal -- is no posture:
    [beginTracking] starts no session on it, reloads the main menu and
    returns with every counter and flag as it was, having read no further
    sample. *)
Theorem X11_unordered_sample_tracks_nothing (g : Globals) (s : Sample)
    (inp : list Sample) :
  unordered s = true ->
  beginTracking g (s :: inp) =
  Returned (readMotion s g) inp
           (Motion s :: Delay (DEBOUNCE * 5) :: showMainMenu g).
Proof.
  intros Hu. apply nothing_tracked_returns.
  - destruct ((sx s < sy s)%flt) eqn:Hxy; [|reflexivity].
    destruct ((sy s < sz s)%flt) eqn:Hyz; [|reflexivity]. exfalso.
    pose proof (lt_trans _ _ _ Hxy Hyz) as Hxz.
    unfold unordered in Hu. repeat (apply orb_prop in Hu; destruct Hu as [Hu|Hu]).
    + destruct (nan_not_lt (sx s) (sy s) Hu); congruence.
    + destruct (nan_not_lt (sy s) (sz s) Hu); congruence.
    + destruct (nan_not_lt (sz s) (sy s) Hu); congruence.
    + destruct (eq_not_lt _ _ Hu); congruence.
    + destruct (eq_not_lt _ _ Hu); congruence.
    + destruct (eq_not_lt _ _ Hu); congruence.
  - destruct ((sy s > sz s)%flt) eqn:Hyz; [|now rewrite andb_false_r].
    destruct ((sz s > sx s)%flt) eqn:Hzx; [|now rewrite andb_false_r]. exfalso.
    unfold F.gt in Hyz, Hzx. fold (F.lt (sz s) (sy s)) in Hyz.
    fold (F.lt (sx s) (sz s)) in Hzx.
    pose proof (lt_trans _ _ _ Hzx Hyz) as Hxy.
    unfold unordered in Hu. repeat (apply orb_prop in Hu; destruct Hu as [Hu|Hu]).
    + destruct (nan_not_lt (sx s) (sz s) Hu); congruence.
    + destruct (nan_not_lt (sy s) (sz s) Hu); congruence.
    + destruct (nan_not_lt (sz s) (sy s) Hu); congruence.
    + destruct (eq_not_lt _ _ Hu); congruence.
    + destruct (eq_not_lt _ _ Hu); congruence.
    + destruct (eq_not_lt _ _ Hu); congruence.
  - destruct ((sz s > sx s)%flt) eqn:Hzx; [|now rewrite andb_false_r].
    destruct ((sx s > sy s)%flt) eqn:Hxy; [|now rewrite andb_false_r]. exfalso.
    unfold F.gt in Hzx, Hxy. fold (F.lt (sx s) (sz s)) in Hzx.
    fold (F.lt (sy s) (sx s)) in Hxy.
    pose proof (lt_trans _ _ _ Hxy Hzx) as Hyz.
    unfold unordered in Hu. repeat (apply orb_prop in Hu; destruct Hu as [Hu|Hu]).
    + destruct (nan_not_lt (sx s) (sz s) Hu); congruence.
    + destruct (nan_not_lt (sy s) (sx s) Hu); congruence.
    + destruct (nan_not_lt (sz s) (sx s) Hu); congruence.
    + destruct (eq_not_lt _ _ Hu); congruence.
    + destruct (eq_not_lt _ _ Hu); congruence.
    + destruct (eq_not_lt _ _ Hu); congruence.
Qed.

Lemma X11_unordered_sample_tracks_nothing_witness :
  beginTracking power_on [mkSample (F.of_int 1) S754_nan (F.of_int 3);
                          sample 0 0 0]
  = Returned (readMotion (mkSample (F.of_int 1) S754_nan (F.of_int 3)) power_on)
             [sample 0 0 0]
             (Motion (mkSample (F.of_int 1) S754_nan (F.of_int 3))
              :: Delay (DEBOUNCE * 5) :: showMainMenu power_on)
  /\ beginTracking power_on [sample 1 3 1; sample 0 0 0]
     = Returned (readMotion (sample 1 3 1) power_on) [sample 0 0 0]
                (Motion (sample 1 3 1)
                 :: Delay (DEBOUNCE * 5) :: showMainMenu power_on).
Proof.
  split.
  - exact (X11_unordered_sample_tracks_nothing power_on
             (mkSample (F.of_int 1) S754_nan (F.of_int 3)) [sample 0 0 0]
             eq_refl).
  - exact (X11_unordered_sample_tracks_nothing power_on (sample 1 3 1)
             [sample 0 0 0] eq_refl).
Defined.

(** X12. A NaN on an axis that a detector compares is ignored by it: the
    iteration changes neither the phase nor the counter.  Sit-ups compare
    x and y, push-ups z and x, squats z and y, jumping jacks x alone. *)
Theorem X12_detectors_ignore_nan (k : Kind) (l : local (detector k))
    (g : Globals) (s : Sample) :
  match k with
  | JumpingJacks => is_nan (sx s) = true
  | Squats => is_nan (sz s) = true \/ is_nan (sy s) = true
  | Situps => is_nan (sx s) = true \/ is_nan (sy s) = true
  | Pushups => is_nan (sz s) = true \/ is_nan (sx s) = true
  end ->
  feed k s (l, g) = (l, readMotion s g).
Proof.
  unfold feed, new_local, new_globals. cbn [fst snd].
  destruct k; simpl in l |- *.
  - intros H. unfold jumpJacks_body. simpl accX.
    now rewrite (nan_not_le _ _ H).
  - intros H. unfold squats_body. simpl accZ. simpl accY. unfold F.gt.
    fold (F.lt (sy s) (sz s)).
    assert (H1 : (sy s < sz s)%flt = false /\ (sz s < sy s)%flt = false).
    { destruct H as [H|H];
        [destruct (nan_not_lt (sz s) (sy s) H)|destruct (nan_not_lt (sy s) (sz s) H)];
        auto. }
    destruct H1 as [-> ->]. now rewrite !andb_false_r.
  - intros H. unfold sitUps_body. simpl accX. simpl accY. unfold F.gt.
    fold (F.lt (sy s) (sx s)).
    assert (H1 : (sy s < sx s)%flt = false /\ (sx s < sy s)%flt = false).
    { destruct H as [H|H];
        [destruct (nan_not_lt (sx s) (sy s) H)|destruct (nan_not_lt (sy s) (sx s) H)];
        auto. }
    destruct H1 as [-> ->]. now rewrite !andb_false_r.
  - intros H. unfold pushUps_body. simpl accZ. simpl accX. unfold F.gt.
    fold (F.lt (sx s) (sz s)).
    assert (H1 : (sx s < sz s)%flt = false /\ (sz s < sx s)%flt = false).
    { destruct H as [H|H];
        [destruct (nan_not_lt (sz s) (sx s) H)|destruct (nan_not_lt (sx s) (sz s) H)];
        auto. }
    destruct H1 as [-> ->]. now rewrite !andb_false_r.
Qed.

Lemma X12_detectors_ignore_nan_witness :
  feed Situps (mkSample S754_nan (F.of_int 1) (F.of_int 3)) (true, power_on)
  = (true, readMotion (mkSample S754_nan (F.of_int 1) (F.of_int 3)) power_on).
Proof.
  exact (X12_detectors_ignore_nan Situps true power_on
           (mkSample S754_nan (F.of_int 1) (F.of_int 3))
           (or_introl eq_refl)).
Defined.

(** ** How long a routine takes *)

Lemma unread_emit pre r : unread (emit pre r) = unread r.
Proof. now destruct r. Qed.

(** Twice the repetitions counted by the loop are at most the samples it
    has read, plus one if it started in the active phase. *)
Lemma detector_loop_rate (k : Kind) (inp : list Sample) :
  forall (l : local (detector k)) (g : Globals),
  0 <= numOf k g <= REPS ->
  let r := detector_loop k l g inp in
  Z.of_nat (length (unread r)) <= Z.of_nat (length inp)
  /\ 2 * (numOf k (globals_of r) - numOf k g)
     <= Z.of_nat (length inp) - Z.of_nat (length (unread r))
        + (if active (detector k) l then 1 else 0).
Proof.
  induction inp as [|s inp IH]; intros l g Hn; cbv zeta.
  - assert (Hr : unread (detector_loop k l g []) = []
                 /\ globals_of (detector_loop k l g []) = g).
    { unfold detector_loop. simpl. now destruct (numOf k g <? REPS). }
    destruct Hr as [-> ->]. simpl length.
    destruct (active (detector k) l); lia.
  - destruct (Z.eq_dec (numOf k g) REPS) as [He|Hne].
    { rewrite detector_loop_exit by lia. simpl unread. simpl globals_of.
      destruct (active (detector k) l); lia. }
    rewrite detector_loop_cons by lia.
    rewrite unread_emit, globals_of_emit.
    pose proof (detector_loop_step k l g s ltac:(apply Z.ltb_lt; lia) Hn) as Hs.
    cbv zeta in Hs.
    change (new_globals (body (detector k) l (readMotion s g)))
      with (snd (feed k s (l, g))) in Hs.
    destruct (IH (fst (feed k s (l, g))) (snd (feed k s (l, g)))
                ltac:(lia)) as [IH1 IH2].
    cbn [length]. rewrite Nat2Z.inj_succ.
    assert (Hi : incr (numOf k g) = numOf k g + 1)
      by (apply incr_small; unfold REPS in *; lia).
    destruct (feed_count_cases k l g s) as [H1|(Ha & Hb & H1)].
    + destruct (active (detector k) l),
        (active (detector k) (fst (feed k s (l, g)))); lia.
    + rewrite Ha. rewrite Hb in IH2. lia.
Qed.

(** X13. A routine cannot be completed in fewer samples than two per
    repetition: a tracking function that is started with its counter at 0
    and returns has read at least 20 samples, or 19 when its detector
    starts in the active phase (squats, and jumping jacks with the jump
    already seen). *)
Theorem X13_routine_needs_samples (k : Kind) (g : Globals) (inp : list Sample) :
  numOf k g = 0 ->
  returned (track k g inp) = true ->
  Z.of_nat (length (unread (track k g inp))) + 20 - head_start k
  <= Z.of_nat (length inp).
Proof.
  intros H0 Hr.
  destruct (track_returned k g inp ltac:(rewrite H0; unfold REPS; lia) Hr)
    as [Hn _].
  rewrite numOf_track in Hn.
  destruct (detector_loop_rate k inp (initial (detector k)) g
              ltac:(rewrite H0; unfold REPS; lia)) as [H1 H2].
  assert (Hu : unread (track k g inp)
               = unread (detector_loop k (initial (detector k)) g inp)).
  { rewrite track_unfold in Hr |- *. rewrite returned_emit in Hr.
    rewrite unread_emit.
    destruct (detector_loop k (initial (detector k)) g inp);
      [reflexivity|discriminate Hr]. }
  rewrite Hu. unfold head_start. rewrite Hn, H0 in H2. unfold REPS in H2.
  destruct (active (detector k) (initial (detector k))); lia.
Qed.

Lemma X13_routine_needs_samples_witness :
  Z.of_nat (length (unread (track Situps power_on (tl situps_routine))))
  + 20 - head_start Situps
  <= Z.of_nat (length (tl situps_routine)).
Proof.
  apply X13_routine_needs_samples.
  - reflexivity.
  - vm_compute. reflexivity.
Defined.
